(** * Taskly: a shallow embedding of [cli.js]

    The command-line to-do manager keeps an ordered sequence of task
    records in one JSON file.  This development embeds the task store
    ([loadTasks], [saveTasks]), the display helper [formatTask] and the
    handlers [commands.add], [commands.list], [commands.complete] and
    [commands.remove], together with the parts of the JavaScript
    platform they rely on ([parseInt], [JSON.stringify], [JSON.parse],
    the string and array methods, [fs], [console], [process.exit]). *)

From Stdlib Require Import String Ascii.
From Stdlib Require Import List NArith ZArith Bool Lia.
From Stdlib Require DecimalNat.
Import ListNotations.

(** ** JavaScript strings

    A JavaScript string is a sequence of UTF-16 code units; a code unit is
    an [N] (always below 65536 in a real string).  Literals of the source
    are written with [js], which decodes the UTF-8 bytes of a Rocq string
    literal into code units. *)

Definition jsstring := list N.

(** UTF-8 bytes to UTF-16 code units (used on literals only). *)
Local Open Scope N_scope.

Fixpoint utf8_units (bs : list N) : jsstring :=
  match bs with
  | [] => []
  | b0 :: r0 =>
      if b0 <? 0x80 then b0 :: utf8_units r0
      else if b0 <? 0xE0 then
        match r0 with
        | b1 :: r1 => ((b0 - 0xC0) * 64 + (b1 - 0x80)) :: utf8_units r1
        | _ => []
        end
      else if b0 <? 0xF0 then
        match r0 with
        | b1 :: b2 :: r2 =>
            ((b0 - 0xE0) * 4096 + (b1 - 0x80) * 64 + (b2 - 0x80)) :: utf8_units r2
        | _ => []
        end
      else
        match r0 with
        | b1 :: b2 :: b3 :: r3 =>
            let cp := (b0 - 0xF0) * 262144 + (b1 - 0x80) * 4096
                      + (b2 - 0x80) * 64 + (b3 - 0x80) in
            let v := cp - 0x10000 in
            (0xD800 + v / 1024) :: (0xDC00 + v mod 1024) :: utf8_units r3
        | _ => []
        end
  end.

Definition js (s : string) : jsstring :=
  utf8_units (map N_of_ascii (list_ascii_of_string s)).
Arguments js : simpl never.

Local Close Scope N_scope.

Module JSString.
Local Open Scope N_scope.

(** The double quote, U+0022. *)
Definition dquote : jsstring := [34].

(** [a === b] on strings. *)
Fixpoint eqb (a b : jsstring) : bool :=
  match a, b with
  | [], [] => true
  | x :: a', y :: b' => (x =? y) && eqb a' b'
  | _, _ => false
  end.

(** [s.startsWith(p)] *)
Fixpoint startsWith (s p : jsstring) {struct p} : bool :=
  match p, s with
  | [], _ => true
  | x :: p', y :: s' => (x =? y) && startsWith s' p'
  | _ :: _, [] => false
  end.

(** [parts.join(sep)] on an array of strings. *)
Fixpoint join (parts : list jsstring) (sep : jsstring) : jsstring :=
  match parts with
  | [] => []
  | [p] => p
  | p :: rest => p ++ sep ++ join rest sep
  end.

(** [s.split(c)] for a separator of one code unit: the segments between
    the occurrences of [c]; never empty. *)
Fixpoint split (s : jsstring) (c : N) : list jsstring :=
  match s with
  | [] => [[]]
  | x :: r =>
      if x =? c then [] :: split r c
      else match split r c with
           | seg :: segs => (x :: seg) :: segs
           | [] => [[x]]
           end
  end.

(** [arr.includes(s)] on an array of strings. *)
Definition includes (arr : list jsstring) (s : jsstring) : bool :=
  existsb (fun x => eqb x s) arr.

(** [s.substr(n)] *)
Definition substr (s : jsstring) (n : nat) : jsstring := skipn n s.

(** Decimal digits of a natural number: [String(n)] for an array index
    or length. *)
Fixpoint uint_units (d : Decimal.uint) : jsstring :=
  match d with
  | Decimal.Nil => []
  | Decimal.D0 r => 48 :: uint_units r
  | Decimal.D1 r => 49 :: uint_units r
  | Decimal.D2 r => 50 :: uint_units r
  | Decimal.D3 r => 51 :: uint_units r
  | Decimal.D4 r => 52 :: uint_units r
  | Decimal.D5 r => 53 :: uint_units r
  | Decimal.D6 r => 54 :: uint_units r
  | Decimal.D7 r => 55 :: uint_units r
  | Decimal.D8 r => 56 :: uint_units r
  | Decimal.D9 r => 57 :: uint_units r
  end.

Definition toString (n : nat) : jsstring := uint_units (Nat.to_uint n).

(** The digit [d < 36] as a lower-case alphanumeric code unit. *)
Definition digit_unit (d : N) : N := if d <? 10 then 48 + d else 87 + d.

(** [n.toString(36)] for a non-negative integer. *)
Fixpoint radix36 (fuel : nat) (n : N) (acc : jsstring) : jsstring :=
  match fuel with
  | O => acc
  | S f =>
      if n <? 36 then digit_unit n :: acc
      else radix36 f (n / 36) (digit_unit (n mod 36) :: acc)
  end.

Definition toString36 (n : N) : jsstring :=
  radix36 (S (N.to_nat (N.log2 n))) n [].

(** *** parseInt *)

(** WhiteSpace and LineTerminator code units, skipped by [parseInt]. *)
Definition is_whitespace (c : N) : bool :=
  ((9 <=? c) && (c <=? 13)) || (c =? 32) || (c =? 0xA0) || (c =? 0x1680)
  || ((0x2000 <=? c) && (c <=? 0x200A)) || (c =? 0x2028) || (c =? 0x2029)
  || (c =? 0x202F) || (c =? 0x205F) || (c =? 0x3000) || (c =? 0xFEFF).

Fixpoint trimStart (s : jsstring) : jsstring :=
  match s with
  | c :: r => if is_whitespace c then trimStart r else s
  | [] => []
  end.

(** The value of [c] as a digit in the given radix, if it is one. *)
Definition digit_value (radix c : N) : option N :=
  let v := if (48 <=? c) && (c <=? 57) then Some (c - 48)
           else if (97 <=? c) && (c <=? 122) then Some (c - 87)
           else if (65 <=? c) && (c <=? 90) then Some (c - 55)
           else None in
  match v with
  | Some d => if d <? radix then Some d else None
  | None => None
  end.

(** The value of the longest prefix of digits, [None] when it is empty. *)
Fixpoint digits_value (radix : N) (s : jsstring) (acc : option N) : option N :=
  match s with
  | c :: r =>
      match digit_value radix c with
      | Some d =>
          digits_value radix r
            (Some (match acc with Some a => a * radix + d | None => d end))
      | None => acc
      end
  | [] => acc
  end.

(** A leading [-] (45) or [+] (43) is removed and gives the sign. *)
Definition strip_sign (s : jsstring) : Z * jsstring :=
  match s with
  | c :: r => if c =? 45 then ((-1)%Z, r)
              else if c =? 43 then (1%Z, r)
              else (1%Z, s)
  | [] => (1%Z, s)
  end.

(** A leading [0x] or [0X] is removed and selects radix 16. *)
Definition strip_hex_prefix (s : jsstring) : N * jsstring :=
  match s with
  | c :: x :: r =>
      if (c =? 48) && ((x =? 120) || (x =? 88)) then (16, r) else (10, s)
  | _ => (10, s)
  end.

(** [parseInt(s)] with no radix argument; [None] is NaN.  The result is
    kept as the exact integer: the callers only compare it with 1 and with
    an array length, and index with it inside that range, where the
    rounding of large values to a double makes no difference. *)
Definition parseInt (s : jsstring) : option Z :=
  let (sign, s1) := strip_sign (trimStart s) in
  let (radix, s2) := strip_hex_prefix s1 in
  match digits_value radix s2 None with
  | Some m => Some (sign * Z.of_N m)%Z
  | None => None
  end.

End JSString.

(** ** JSON

    [JSON.stringify(value, null, 2)] and [JSON.parse(text)] on the values
    JSON can denote.  A number is kept as the text that denoted it: task
    records hold strings and booleans only, so numbers are parsed (the
    grammar is complete) but never computed with or written. *)

Module JSON.
Local Open Scope N_scope.

Unset Elimination Schemes.
Inductive json :=
| JNull
| JBool (b : bool)
| JNumber (lexeme : jsstring)
| JString (s : jsstring)
| JArray (items : list json)
| JObject (members : list (jsstring * json)).
Set Elimination Schemes.

(** *** Serialisation *)

Definition hex_unit (d : N) : N := if d <? 10 then 48 + d else 87 + d.

(** [\uXXXX] with lower-case hexadecimal digits. *)
Definition unicode_escape (c : N) : jsstring :=
  [92; 117; hex_unit (c / 4096); hex_unit ((c / 256) mod 16);
   hex_unit ((c / 16) mod 16); hex_unit (c mod 16)].

Definition is_high_surrogate (c : N) : bool := (0xD800 <=? c) && (c <=? 0xDBFF).
Definition is_low_surrogate (c : N) : bool := (0xDC00 <=? c) && (c <=? 0xDFFF).

(** The escape of a code unit that is not a surrogate. *)
Definition escape_unit (c : N) : jsstring :=
  if c =? 8 then [92; 98]
  else if c =? 9 then [92; 116]
  else if c =? 10 then [92; 110]
  else if c =? 12 then [92; 102]
  else if c =? 13 then [92; 114]
  else if c =? 34 then [92; 34]
  else if c =? 92 then [92; 92]
  else if c <? 32 then unicode_escape c
  else [c].

(** QuoteJSONString without the enclosing quotes: a surrogate pair is
    written as it is, a lone surrogate as an escape. *)
Fixpoint quote_units (s : jsstring) : jsstring :=
  match s with
  | [] => []
  | c :: r =>
      if is_high_surrogate c then
        match r with
        | d :: r' =>
            if is_low_surrogate d then c :: d :: quote_units r'
            else unicode_escape c ++ quote_units r
        | [] => unicode_escape c
        end
      else if is_low_surrogate c then unicode_escape c ++ quote_units r
      else escape_unit c ++ quote_units r
  end.

Definition quote (s : jsstring) : jsstring := 34 :: quote_units s ++ [34].

(** A line feed followed by [n] spaces. *)
Definition newline (n : nat) : jsstring := 10 :: repeat 32 n.

(** SerializeJSONProperty with a gap of two spaces; [indent] is the
    current indentation. *)
Fixpoint serialize (indent : nat) (v : json) : jsstring :=
  match v with
  | JNull => [110; 117; 108; 108]
  | JBool true => [116; 114; 117; 101]
  | JBool false => [102; 97; 108; 115; 101]
  | JNumber lexeme => lexeme
  | JString s => quote s
  | JArray [] => [91; 93]
  | JArray items =>
      [91] ++ newline (indent + 2)
        ++ JSString.join (map (serialize (indent + 2)) items)
                         (44 :: newline (indent + 2))
        ++ newline indent ++ [93]
  | JObject [] => [123; 125]
  | JObject members =>
      [123] ++ newline (indent + 2)
        ++ JSString.join
             (map (fun m => quote (fst m) ++ [58; 32] ++ serialize (indent + 2) (snd m))
                  members)
             (44 :: newline (indent + 2))
        ++ newline indent ++ [125]
  end.

Definition stringify (v : json) : jsstring := serialize 0 v.

(** *** Parsing *)

Inductive parse_result (A : Type) :=
| Parsed (a : A) (rest : jsstring)
| SyntaxError
| OutOfFuel.
Arguments Parsed {A} a rest.
Arguments SyntaxError {A}.
Arguments OutOfFuel {A}.

(** JSON white space: tab, line feed, carriage return, space. *)
Definition is_ws (c : N) : bool :=
  (c =? 9) || (c =? 10) || (c =? 13) || (c =? 32).

Fixpoint skip_ws (s : jsstring) : jsstring :=
  match s with
  | c :: r => if is_ws c then skip_ws r else s
  | [] => []
  end.

Definition hex_value (c : N) : option N := JSString.digit_value 16 c.

Definition simple_escape (e : N) : option N :=
  if e =? 34 then Some 34
  else if e =? 92 then Some 92
  else if e =? 47 then Some 47
  else if e =? 98 then Some 8
  else if e =? 102 then Some 12
  else if e =? 110 then Some 10
  else if e =? 114 then Some 13
  else if e =? 116 then Some 9
  else None.

(** The characters of a string literal after its opening quote, up to and
    including the closing quote; [None] is a syntax error. *)
Fixpoint parse_chars (s : jsstring) : option (jsstring * jsstring) :=
  match s with
  | [] => None
  | c :: r =>
      if c =? 34 then Some ([], r)
      else if c =? 92 then
        match r with
        | [] => None
        | e :: r1 =>
            if e =? 117 then
              match r1 with
              | h1 :: h2 :: h3 :: h4 :: r2 =>
                  match hex_value h1, hex_value h2, hex_value h3, hex_value h4 with
                  | Some d1, Some d2, Some d3, Some d4 =>
                      match parse_chars r2 with
                      | Some (t, rest) =>
                          Some ((d1 * 4096 + d2 * 256 + d3 * 16 + d4) :: t, rest)
                      | None => None
                      end
                  | _, _, _, _ => None
                  end
              | _ => None
              end
            else
              match simple_escape e with
              | Some u =>
                  match parse_chars r1 with
                  | Some (t, rest) => Some (u :: t, rest)
                  | None => None
                  end
              | None => None
              end
        end
      else if c <? 32 then None
      else
        match parse_chars r with
        | Some (t, rest) => Some (c :: t, rest)
        | None => None
        end
  end.

Definition is_digit (c : N) : bool := (48 <=? c) && (c <=? 57).

Fixpoint span_digits (s : jsstring) : jsstring * jsstring :=
  match s with
  | c :: r =>
      if is_digit c then let (d, rest) := span_digits r in (c :: d, rest)
      else ([], s)
  | [] => ([], [])
  end.

(** One or more digits. *)
Definition scan_digits1 (s : jsstring) : option (jsstring * jsstring) :=
  match span_digits s with
  | ([], _) => None
  | (d, rest) => Some (d, rest)
  end.

(** [0], or a non-zero digit followed by digits. *)
Definition scan_int (s : jsstring) : option (jsstring * jsstring) :=
  match s with
  | c :: r =>
      if c =? 48 then Some ([48], r)
      else if is_digit c then let (d, rest) := span_digits r in Some (c :: d, rest)
      else None
  | [] => None
  end.

Definition scan_frac (s : jsstring) : option (jsstring * jsstring) :=
  match s with
  | c :: r =>
      if c =? 46 then
        match scan_digits1 r with
        | Some (d, rest) => Some (c :: d, rest)
        | None => None
        end
      else Some ([], s)
  | [] => Some ([], s)
  end.

Definition scan_exp (s : jsstring) : option (jsstring * jsstring) :=
  match s with
  | c :: r =>
      if (c =? 101) || (c =? 69) then
        let (sg, r') :=
          match r with
          | x :: r1 => if (x =? 43) || (x =? 45) then ([x], r1) else ([], r)
          | [] => ([], r)
          end in
        match scan_digits1 r' with
        | Some (d, rest) => Some (c :: sg ++ d, rest)
        | None => None
        end
      else Some ([], s)
  | [] => Some ([], s)
  end.

(** A JSON number: the text that denotes it and what follows. *)
Definition scan_number (s : jsstring) : option (jsstring * jsstring) :=
  let (neg, s1) :=
    match s with
    | c :: r => if c =? 45 then ([c], r) else ([], s)
    | [] => ([], s)
    end in
  match scan_int s1 with
  | None => None
  | Some (i, s2) =>
      match scan_frac s2 with
      | None => None
      | Some (f, s3) =>
          match scan_exp s3 with
          | None => None
          | Some (e, s4) => Some (neg ++ i ++ f ++ e, s4)
          end
      end
  end.

Definition parse_literal (s : jsstring) : parse_result json :=
  if JSString.startsWith s [116; 114; 117; 101] then Parsed (JBool true) (skipn 4 s)
  else if JSString.startsWith s [102; 97; 108; 115; 101] then Parsed (JBool false) (skipn 5 s)
  else if JSString.startsWith s [110; 117; 108; 108] then Parsed JNull (skipn 4 s)
  else match scan_number s with
       | Some (lexeme, rest) => Parsed (JNumber lexeme) rest
       | None => SyntaxError
       end.

(** Recursive descent; every call on a nested value, a next element or a
    next member takes one unit of fuel. *)
Fixpoint parse_value (fuel : nat) (s : jsstring) : parse_result json :=
  match fuel with
  | O => OutOfFuel
  | S f =>
      match skip_ws s with
      | [] => SyntaxError
      | c :: r =>
          if c =? 34 then
            match parse_chars r with
            | Some (str, rest) => Parsed (JString str) rest
            | None => SyntaxError
            end
          else if c =? 91 then
            match skip_ws r with
            | d :: rest =>
                if d =? 93 then Parsed (JArray []) rest
                else match parse_items f r with
                     | Parsed items rest' => Parsed (JArray items) rest'
                     | SyntaxError => SyntaxError
                     | OutOfFuel => OutOfFuel
                     end
            | [] => SyntaxError
            end
          else if c =? 123 then
            match skip_ws r with
            | d :: rest =>
                if d =? 125 then Parsed (JObject []) rest
                else match parse_members f r with
                     | Parsed members rest' => Parsed (JObject members) rest'
                     | SyntaxError => SyntaxError
                     | OutOfFuel => OutOfFuel
                     end
            | [] => SyntaxError
            end
          else parse_literal (c :: r)
      end
  end

with parse_items (fuel : nat) (s : jsstring) : parse_result (list json) :=
  match fuel with
  | O => OutOfFuel
  | S f =>
      match parse_value f s with
      | Parsed v rest =>
          match skip_ws rest with
          | d :: rest' =>
              if d =? 44 then
                match parse_items f rest' with
                | Parsed vs rest'' => Parsed (v :: vs) rest''
                | SyntaxError => SyntaxError
                | OutOfFuel => OutOfFuel
                end
              else if d =? 93 then Parsed [v] rest'
              else SyntaxError
          | [] => SyntaxError
          end
      | SyntaxError => SyntaxError
      | OutOfFuel => OutOfFuel
      end
  end

with parse_members (fuel : nat) (s : jsstring) : parse_result (list (jsstring * json)) :=
  match fuel with
  | O => OutOfFuel
  | S f =>
      match skip_ws s with
      | q :: r =>
          if q =? 34 then
            match parse_chars r with
            | Some (key, rest) =>
                match skip_ws rest with
                | col :: rest1 =>
                    if col =? 58 then
                      match parse_value f rest1 with
                      | Parsed v rest2 =>
                          match skip_ws rest2 with
                          | d :: rest3 =>
                              if d =? 44 then
                                match parse_members f rest3 with
                                | Parsed ms rest4 => Parsed ((key, v) :: ms) rest4
                                | SyntaxError => SyntaxError
                                | OutOfFuel => OutOfFuel
                                end
                              else if d =? 125 then Parsed [(key, v)] rest3
                              else SyntaxError
                          | [] => SyntaxError
                          end
                      | SyntaxError => SyntaxError
                      | OutOfFuel => OutOfFuel
                      end
                    else SyntaxError
                | [] => SyntaxError
                end
            | None => SyntaxError
            end
          else SyntaxError
      | [] => SyntaxError
      end
  end.

(** [JSON.parse(text)]: one value between optional white space. *)
Definition parse (text : jsstring) : parse_result json :=
  match parse_value (2 * length text + 2) text with
  | Parsed v rest =>
      match skip_ws rest with
      | [] => Parsed v []
      | _ :: _ => SyntaxError
      end
  | SyntaxError => SyntaxError
  | OutOfFuel => OutOfFuel
  end.

End JSON.

(** ** The process and its environment

    One invocation of the program runs against a [world]: the state of the
    file [TASKS_FILE], whether the file system currently accepts a write to
    it, and how many writes have been attempted.  What the invocation reads
    from the clock, the random generator and the engine is collected in
    [env]. *)

Inductive file_state :=
| Absent                              (* [fs.existsSync] is false *)
| Unreadable (message : jsstring)     (* [fs.readFileSync] throws *)
| Content (text : jsstring).          (* the text [fs.readFileSync] returns *)

Record world := {
  tasks_file : file_state;
  write_error : option jsstring;      (* [Some m]: [fs.writeFileSync] throws [m] *)
  writes : nat                        (* calls of [fs.writeFileSync] so far *)
}.

Record env := {
  Date_now : N;                               (* [Date.now()] *)
  Math_random_36 : jsstring;                  (* [Math.random().toString(36)] *)
  Date_toISOString : jsstring;                (* [new Date().toISOString()] *)
  SyntaxError_message : jsstring -> jsstring  (* the engine's message for a text *)
}.

Inductive line :=
| Stdout (s : jsstring)
| Stderr (s : jsstring).

(** The result of running a piece of the program: it returns a value, throws
    an exception (carrying [error.message]), ends the process with
    [process.exit], or leaves the model ([Unmodelled]: the file holds valid
    JSON that is not an array of task records, on which the handlers act
    through JavaScript's dynamic typing). *)
Inductive outcome (A : Type) :=
| Return (a : A) (w : world) (out : list line)
| Throw (message : jsstring) (w : world) (out : list line)
| Exit (code : nat) (w : world) (out : list line)
| Unmodelled (w : world) (out : list line).
Arguments Return {A} a w out.
Arguments Throw {A} message w out.
Arguments Exit {A} code w out.
Arguments Unmodelled {A} w out.

Definition M (A : Type) : Type := world -> list line -> outcome A.

Definition ret {A} (a : A) : M A := fun w out => Return a w out.

Definition bind {A B} (m : M A) (k : A -> M B) : M B :=
  fun w out =>
    match m w out with
    | Return a w' out' => k a w' out'
    | Throw msg w' out' => Throw msg w' out'
    | Exit code w' out' => Exit code w' out'
    | Unmodelled w' out' => Unmodelled w' out'
    end.

Notation "x <- m ;; k" := (bind m (fun x => k))
  (at level 61, m at next level, right associativity).
Notation "m ;; k" := (bind m (fun _ => k))
  (at level 61, right associativity).

(** [if (b) { m }] *)
Definition when (b : bool) (m : M unit) : M unit := if b then m else ret tt.

(** [try { m } catch (error) { handler(error.message) }] *)
Definition try_catch {A} (m : M A) (handler : jsstring -> M A) : M A :=
  fun w out =>
    match m w out with
    | Throw msg w' out' => handler msg w' out'
    | r => r
    end.

Definition throw {A} (message : jsstring) : M A := fun w out => Throw message w out.

Definition console_log (s : jsstring) : M unit :=
  fun w out => Return tt w (out ++ [Stdout s]).

Definition console_error (s : jsstring) : M unit :=
  fun w out => Return tt w (out ++ [Stderr s]).

Definition process_exit (code : nat) : M unit := fun w out => Exit code w out.

Definition fs_existsSync : M bool :=
  fun w out =>
    Return (match tasks_file w with Absent => false | _ => true end) w out.

Definition fs_readFileSync : M jsstring :=
  fun w out =>
    match tasks_file w with
    | Content text => Return text w out
    | Unreadable message => Throw message w out
    | Absent => Throw (js "ENOENT: no such file or directory") w out
    end.

Definition fs_writeFileSync (text : jsstring) : M unit :=
  fun w out =>
    match write_error w with
    | Some message =>
        Throw message
          {| tasks_file := tasks_file w; write_error := write_error w;
             writes := S (writes w) |} out
    | None =>
        Return tt
          {| tasks_file := Content text; write_error := write_error w;
             writes := S (writes w) |} out
    end.

Definition JSON_parse (e : env) (text : jsstring) : M JSON.json :=
  fun w out =>
    match JSON.parse text with
    | JSON.Parsed v _ => Return v w out
    | JSON.SyntaxError => Throw (SyntaxError_message e text) w out
    | JSON.OutOfFuel => Unmodelled w out
    end.

(** [arr.forEach((x, index) => f(x, index))] *)
Fixpoint forEach_from {A} (arr : list A) (index : nat) (f : A -> nat -> M unit) : M unit :=
  match arr with
  | [] => ret tt
  | x :: rest => f x index ;; forEach_from rest (S index) f
  end.

Definition forEach {A} (arr : list A) (f : A -> nat -> M unit) : M unit :=
  forEach_from arr 0 f.

(** Running a handler from an empty output. *)
Definition run {A} (m : M A) (w : world) : outcome A := m w [].

Definition final_world {A} (r : outcome A) : world :=
  match r with
  | Return _ w _ | Throw _ w _ | Exit _ w _ | Unmodelled w _ => w
  end.

Definition output {A} (r : outcome A) : list line :=
  match r with
  | Return _ _ o | Throw _ _ o | Exit _ _ o | Unmodelled _ o => o
  end.

(** The exit status of the process: 0 when the handler returns, the
    argument of [process.exit], 1 for an uncaught exception. *)
Definition exit_code {A} (r : outcome A) : option nat :=
  match r with
  | Return _ _ _ => Some 0
  | Exit code _ _ => Some code
  | Throw _ _ _ => Some 1
  | Unmodelled _ _ => None
  end.

(** ** Task records *)

Record Task := {
  id : jsstring;
  title : jsstring;
  priority : jsstring;
  completed : bool;
  created : jsstring;
  completedAt : option jsstring
}.

(** The object a task record is in the program: its properties in the order
    [add] creates them, then [completedAt] once [complete] has set it. *)
Definition json_of_task (t : Task) : JSON.json :=
  JSON.JObject
    ([(js "id", JSON.JString (id t));
      (js "title", JSON.JString (title t));
      (js "priority", JSON.JString (priority t));
      (js "completed", JSON.JBool (completed t));
      (js "created", JSON.JString (created t))]
     ++ match completedAt t with
        | Some at_ => [(js "completedAt", JSON.JString at_)]
        | None => []
        end).

Definition json_of_tasks (tasks : list Task) : JSON.json :=
  JSON.JArray (map json_of_task tasks).

Definition keys_are (keys : list jsstring) (names : list string) : bool :=
  forallb (fun p => JSString.eqb (fst p) (js (snd p))) (combine keys names)
  && (List.length keys =? List.length names)%nat.

Definition task_of_json (v : JSON.json) : option Task :=
  match v with
  | JSON.JObject [(k1, JSON.JString i); (k2, JSON.JString t); (k3, JSON.JString p);
                  (k4, JSON.JBool c); (k5, JSON.JString cr)] =>
      if keys_are [k1; k2; k3; k4; k5]
                  ["id"; "title"; "priority"; "completed"; "created"]%string
      then Some {| id := i; title := t; priority := p; completed := c;
                   created := cr; completedAt := None |}
      else None
  | JSON.JObject [(k1, JSON.JString i); (k2, JSON.JString t); (k3, JSON.JString p);
                  (k4, JSON.JBool c); (k5, JSON.JString cr); (k6, JSON.JString ca)] =>
      if keys_are [k1; k2; k3; k4; k5; k6]
                  ["id"; "title"; "priority"; "completed"; "created"; "completedAt"]%string
      then Some {| id := i; title := t; priority := p; completed := c;
                   created := cr; completedAt := Some ca |}
      else None
  | _ => None
  end.

Fixpoint tasks_of_items (items : list JSON.json) : option (list Task) :=
  match items with
  | [] => Some []
  | v :: rest =>
      match task_of_json v, tasks_of_items rest with
      | Some t, Some ts => Some (t :: ts)
      | _, _ => None
      end
  end.

Definition tasks_of_json (v : JSON.json) : option (list Task) :=
  match v with
  | JSON.JArray items => tasks_of_items items
  | _ => None
  end.

(** The parsed value seen as an array of task records. *)
Definition as_tasks (v : JSON.json) : M (list Task) :=
  fun w out =>
    match tasks_of_json v with
    | Some tasks => Return tasks w out
    | None => Unmodelled w out
    end.

(** ** The program *)

(** Load tasks from file *)
Definition loadTasks (e : env) : M (list Task) :=
  try_catch
    (present <- fs_existsSync ;;
     if present then
       text <- fs_readFileSync ;;
       v <- JSON_parse e text ;;
       as_tasks v
     else ret [])
    (fun message =>
       console_error (js "❌ Error loading tasks: " ++ message) ;;
       ret []).

(** Save tasks to file *)
Definition saveTasks (tasks : list Task) : M unit :=
  try_catch
    (fs_writeFileSync (JSON.stringify (json_of_tasks tasks)))
    (fun message => console_error (js "❌ Error saving tasks: " ++ message)).

(** Generate unique ID *)
Definition generateId (e : env) : jsstring :=
  JSString.toString36 (Date_now e) ++ JSString.substr (Math_random_36 e) 2.

(** Format task for display *)
Definition formatTask (task : Task) (index : nat) : jsstring :=
  let status := if completed task then js "✅" else js "📋" in
  let priority :=
    if JSString.eqb (priority task) (js "high") then js "🔴"
    else if JSString.eqb (priority task) (js "medium") then js "🟡"
    else js "🟢" in
  JSString.toString (index + 1) ++ js ". " ++ status ++ js " " ++ priority
    ++ js " " ++ title task.

(** [arr[index] = x] inside the bounds of the array. *)
Fixpoint assign {A} (arr : list A) (index : nat) (x : A) : list A :=
  match arr, index with
  | [], _ => []
  | _ :: rest, O => x :: rest
  | y :: rest, S i => y :: assign rest i x
  end.

(** What [arr.splice(index, 1)] leaves in the array. *)
Definition splice1 {A} (arr : list A) (index : nat) : list A :=
  firstn index arr ++ skipn (S index) arr.

(** [isNaN(n) || n < 1 || n > count] *)
Definition invalid_number (taskNumber : option Z) (count : nat) : bool :=
  match taskNumber with
  | None => true
  | Some n => (n <? 1)%Z || (Z.of_nat count <? n)%Z
  end.

(** [tasks[taskNumber - 1]]; [None] is [undefined]. *)
Definition at_number {A} (tasks : list A) (taskNumber : option Z) : option A :=
  match taskNumber with
  | Some n => if (n <? 1)%Z then None else nth_error tasks (Z.to_nat (n - 1))
  | None => None
  end.

(** [taskNumber - 1] as an array index, for a number that has passed the
    validation. *)
Definition index_of (taskNumber : option Z) : nat :=
  match taskNumber with
  | Some n => Z.to_nat (n - 1)
  | None => 0
  end.

(** [setTimeout(callback, delay)]: a callback the event loop runs once the
    synchronous part of the program has returned. *)
Definition timer : Type := N * M unit.

Module commands.

Definition add (e : env) (args : list jsstring) : M unit :=
  when (List.length args =? 0)%nat
    (console_error (js "❌ Usage: taskly add <task-title> [--priority=high|medium|low]") ;;
     process_exit 1) ;;
  let title := JSString.join
                 (filter (fun arg => negb (JSString.startsWith arg (js "--"))) args)
                 (js " ") in
  let priorityArg := find (fun arg => JSString.startsWith arg (js "--priority=")) args in
  let priority :=
    match priorityArg with
    | Some arg => nth_error (JSString.split arg 61) 1
    | None => Some (js "low")
    end in
  let reject :=
    console_error (js "❌ Priority must be: high, medium, or low") ;;
    process_exit 1 in
  match priority with
  | None => reject                (* [undefined] is not in the array *)
  | Some priority =>
      when (negb (JSString.includes [js "high"; js "medium"; js "low"] priority))
        reject ;;
      tasks <- loadTasks e ;;
      let newTask := {| id := generateId e;
                        title := title;
                        priority := priority;
                        completed := false;
                        created := Date_toISOString e;
                        completedAt := None |} in
      let tasks := tasks ++ [newTask] in
      saveTasks tasks ;;
      console_log (js "✅ Task added successfully!") ;;
      console_log (js "📋 " ++ JSString.dquote ++ title ++ JSString.dquote
                     ++ js " (" ++ priority ++ js " priority)")
  end.

Definition complete (e : env) (args : list jsstring) : M unit :=
  when (List.length args =? 0)%nat
    (console_error (js "❌ Usage: taskly complete <task-number>") ;;
     process_exit 1) ;;
  let taskNumber := JSString.parseInt (nth 0 args []) in
  tasks <- loadTasks e ;;
  when (invalid_number taskNumber (List.length tasks))
    (console_error (js "❌ Invalid task number. Use 1-"
                      ++ JSString.toString (List.length tasks)) ;;
     process_exit 1) ;;
  match at_number tasks taskNumber with
  | None => throw (js "Cannot read properties of undefined (reading 'completed')")
  | Some task =>
      if completed task then
        console_log (js "ℹ️  Task is already completed!")
      else
        let task := {| id := id task; title := title task; priority := priority task;
                       completed := true;
                       created := created task;
                       completedAt := Some (Date_toISOString e) |} in
        let tasks := assign tasks (index_of taskNumber) task in
        saveTasks tasks ;;
        console_log (js "✅ Task completed!") ;;
        console_log (js "📋 " ++ JSString.dquote ++ title task ++ JSString.dquote)
  end.

Definition remove (e : env) (args : list jsstring) : M unit :=
  when (List.length args =? 0)%nat
    (console_error (js "❌ Usage: taskly remove <task-number>") ;;
     process_exit 1) ;;
  let taskNumber := JSString.parseInt (nth 0 args []) in
  tasks <- loadTasks e ;;
  when (invalid_number taskNumber (List.length tasks))
    (console_error (js "❌ Invalid task number. Use 1-"
                      ++ JSString.toString (List.length tasks)) ;;
     process_exit 1) ;;
  match at_number tasks taskNumber with
  | None => throw (js "Cannot read properties of undefined (reading 'title')")
  | Some removedTask =>
      let tasks := splice1 tasks (index_of taskNumber) in
      saveTasks tasks ;;
      console_log (js "🗑️  Task removed!") ;;
      console_log (js "📋 " ++ JSString.dquote ++ title removedTask ++ JSString.dquote)
  end.

(** The callback [init] hands to [setTimeout]. *)
Definition init_callback : M unit :=
  console_log (js "✅ Created task storage") ;;
  console_log (js "✅ Set up configuration") ;;
  console_log (js "✅ Ready to go!") ;;
  console_log [] ;;
  console_log (js "🎉 Taskly initialized successfully!") ;;
  console_log [] ;;
  console_log (js "Next steps:") ;;
  console_log (js "  taskly add " ++ JSString.dquote ++ js "Complete project setup"
                 ++ JSString.dquote) ;;
  console_log (js "  taskly list") ;;
  console_log (js "  taskly complete 1").

(** [init] returns the timer it has set. *)
Definition init (args : list jsstring) : M (list timer) :=
  let projectName :=
    match nth_error args 0 with
    | Some name => if (List.length name =? 0)%nat then js "my-tasks" else name
    | None => js "my-tasks"
    end in
  console_log (js "🚀 Initializing Taskly workspace...") ;;
  console_log (js "📁 Project: " ++ projectName) ;;
  console_log [] ;;
  ret [(1000%N, init_callback)].

Definition help : M unit :=
  console_log (js "📋 Taskly - Simple Task Management") ;;
  console_log [] ;;
  console_log (js "Usage:") ;;
  console_log (js "  taskly <command> [options]") ;;
  console_log [] ;;
  console_log (js "Commands:") ;;
  console_log (js "  init [project-name]     Initialize new task workspace") ;;
  console_log (js "  add <title> [--priority=high|medium|low]   Add new task") ;;
  console_log (js "  list [--completed|--pending]              List tasks") ;;
  console_log (js "  complete <number>       Mark task as completed") ;;
  console_log (js "  remove <number>         Remove task") ;;
  console_log (js "  help                    Show this help") ;;
  console_log [] ;;
  console_log (js "Examples:") ;;
  console_log (js "  taskly init my-project") ;;
  console_log (js "  taskly add " ++ JSString.dquote ++ js "Buy groceries"
                 ++ JSString.dquote ++ js " --priority=high") ;;
  console_log (js "  taskly list --pending") ;;
  console_log (js "  taskly complete 1") ;;
  console_log [] ;;
  console_log (js "📚 Documentation: https://github.com/deepguide-ai/dg-demo").

(** The filter [list] selects from its flags. *)
Definition list_filter (args : list jsstring) : jsstring :=
  if JSString.includes args (js "--completed") then js "completed"
  else if JSString.includes args (js "--pending") then js "pending"
  else js "all".

Definition list (e : env) (args : Datatypes.list jsstring) : M unit :=
  tasks <- loadTasks e ;;
  if (List.length tasks =? 0)%nat then
    console_log (js "📋 No tasks found. Add some with " ++ JSString.dquote
                   ++ js "taskly add <task>" ++ JSString.dquote)
  else
    let filter := list_filter args in
    let filteredTasks :=
      if JSString.eqb filter (js "completed") then List.filter (fun t => completed t) tasks
      else if JSString.eqb filter (js "pending") then List.filter (fun t => negb (completed t)) tasks
      else tasks in
    console_log (js "📋 Tasks (" ++ filter ++ js "):") ;;
    console_log [] ;;
    if (List.length filteredTasks =? 0)%nat then
      console_log (js "No " ++ filter ++ js " tasks found.")
    else
      forEach filteredTasks (fun task index => console_log (formatTask task index)) ;;
      console_log [] ;;
      console_log (js "Total: " ++ JSString.toString (List.length filteredTasks)
                     ++ js " task(s)").

End commands.

(** ** Main CLI logic *)

Definition unmodelled {A} : M A := fun w out => Unmodelled w out.

(** [fs.readFileSync(path.join(__dirname, 'package.json'), 'utf8')], for
    the state of that file. *)
Definition read_package_json (package_json : file_state) : M jsstring :=
  match package_json with
  | Content text => ret text
  | Unreadable message => throw message
  | Absent => throw (js "ENOENT: no such file or directory")
  end.

(** The value of the last member named [key]: [JSON.parse] lets a later
    duplicate override an earlier one. *)
Fixpoint last_member (members : list (jsstring * JSON.json)) (key : jsstring)
    : option JSON.json :=
  match members with
  | [] => None
  | (k, v) :: rest =>
      match last_member rest key with
      | Some v' => Some v'
      | None => if JSString.eqb k key then Some v else None
      end
  end.

(** The text of [pkg.version] inside a template literal. *)
Definition version_text (pkg : JSON.json) : M jsstring :=
  match pkg with
  | JSON.JNull => throw (js "Cannot read properties of null (reading 'version')")
  | JSON.JObject members =>
      match last_member members (js "version") with
      | None => ret (js "undefined")
      | Some (JSON.JString s) => ret s
      | Some (JSON.JBool true) => ret (js "true")
      | Some (JSON.JBool false) => ret (js "false")
      | Some JSON.JNull => ret (js "null")
      | Some _ => unmodelled      (* a number, an array or an object *)
      end
  | _ => ret (js "undefined")
  end.

(** What [commands[command]] finds on [Object.prototype] when [command] is
    not a key of [commands], and what calling it with [commandArgs] does:
    the accessor [__proto__] gives an object, which is not callable;
    [__defineGetter__] and [__defineSetter__] reject the missing function;
    the other methods return a value that [main] discards. *)
Definition inherited (command : jsstring) : option (M unit) :=
  if JSString.eqb command (js "__proto__")
  then Some (throw (js "commands[command] is not a function"))
  else if JSString.includes [js "__defineGetter__"; js "__defineSetter__"] command
  then Some (throw (js "Object.prototype." ++ command ++ js ": Expecting function"))
  else if JSString.includes
            [js "constructor"; js "hasOwnProperty"; js "isPrototypeOf";
             js "propertyIsEnumerable"; js "toString"; js "toLocaleString";
             js "valueOf"; js "__lookupGetter__"; js "__lookupSetter__"] command
  then Some (ret tt)
  else None.

(** [commands[command]], applied to [commandArgs] when it is found. *)
Definition lookup (e : env) (command : jsstring) (commandArgs : list jsstring)
    : option (M (list timer)) :=
  let no_timer (m : M unit) : M (list timer) := m ;; ret [] in
  if JSString.eqb command (js "add") then Some (no_timer (commands.add e commandArgs))
  else if JSString.eqb command (js "list")
  then Some (no_timer (commands.list e commandArgs))
  else if JSString.eqb command (js "complete")
  then Some (no_timer (commands.complete e commandArgs))
  else if JSString.eqb command (js "remove")
  then Some (no_timer (commands.remove e commandArgs))
  else if JSString.eqb command (js "init") then Some (commands.init commandArgs)
  else if JSString.eqb command (js "help") then Some (no_timer commands.help)
  else option_map no_timer (inherited command).

(** [main], for [process.argv] and the state of [package.json]. *)
Definition main (e : env) (package_json : file_state) (process_argv : list jsstring)
    : M (list timer) :=
  let args := skipn 2 process_argv in
  let command := nth_error args 0 in
  let commandArgs := skipn 1 args in
  match command with
  | None => commands.help ;; ret []                      (* [!command] *)
  | Some command =>
      if (List.length command =? 0)%nat
         || JSString.includes [js "help"; js "--help"; js "-h"] command
      then commands.help ;; ret []
      else if JSString.includes [js "--version"; js "-v"] command then
        text <- read_package_json package_json ;;
        pkg <- JSON_parse e text ;;
        version <- version_text pkg ;;
        console_log (js "taskly v" ++ version) ;;
        ret []
      else
        match lookup e command commandArgs with
        | Some handler => handler
        | None =>
            console_error (js "❌ Unknown command: " ++ command) ;;
            console_log (js "Run " ++ JSString.dquote ++ js "taskly help"
                           ++ JSString.dquote ++ js " for available commands.") ;;
            process_exit 1 ;;
            ret []
        end
  end.

(** The event loop: the callbacks of the timers run, in the order they
    were set, after [main] has returned. *)
Fixpoint run_timers (timers : list timer) : M unit :=
  match timers with
  | [] => ret tt
  | (_, callback) :: rest => callback ;; run_timers rest
  end.

(** One invocation of the program, once Node has started [cli.js] as a
    CommonJS script: [main] runs, then the timers it has set. *)
Definition taskly (e : env) (package_json : file_state) (process_argv : list jsstring)
    : M unit :=
  timers <- main e package_json process_argv ;;
  run_timers timers.

(** ** Auxiliary definitions for the statements *)

(** What [loadTasks] reports on the error channel. *)
Definition load_report (e : env) (w : world) : list line :=
  match tasks_file w with
  | Absent => []
  | Unreadable message => [Stderr (js "❌ Error loading tasks: " ++ message)]
  | Content text =>
      match JSON.parse text with
      | JSON.SyntaxError =>
          [Stderr (js "❌ Error loading tasks: " ++ SyntaxError_message e text)]
      | _ => []
      end
  end.

(** A computation that leaves the world as it found it. *)
Definition read_only {A} (m : M A) : Prop :=
  forall w out, final_world (m w out) = w.

(** The world after [saveTasks tasks], and what [saveTasks] reports. *)
Definition saved (tasks : list Task) (w : world) : world :=
  {| tasks_file := match write_error w with
                   | None => Content (JSON.stringify (json_of_tasks tasks))
                   | Some _ => tasks_file w
                   end;
     write_error := write_error w;
     writes := S (writes w) |}.

Definition save_report (w : world) : list line :=
  match write_error w with
  | Some message => [Stderr (js "❌ Error saving tasks: " ++ message)]
  | None => []
  end.

(** Sample inputs, used to run the program on concrete cases. *)
Definition sample_env : env :=
  {| Date_now := 1730000000000;
     Math_random_36 := js "0.k3j5h2";
     Date_toISOString := js "2026-11-03T10:00:00.000Z";
     SyntaxError_message := fun _ => js "Unexpected token in JSON" |}.

Definition empty_world : world :=
  {| tasks_file := Absent; write_error := None; writes := 0 |}.

(** A world in which the file holds what [saveTasks tasks] writes. *)
Definition store_of (tasks : list Task) : world :=
  {| tasks_file := Content (JSON.stringify (json_of_tasks tasks));
     write_error := None; writes := 0 |}.

Definition task_A : Task :=
  {| id := js "m2r1bz7kk3j5h2"; title := js "A"; priority := js "high";
     completed := true; created := js "2026-11-01T09:00:00.000Z";
     completedAt := Some (js "2026-11-02T09:30:00.000Z") |}.

Definition task_B : Task :=
  {| id := js "m2r1c01ab7x9q1"; title := js "B"; priority := js "low";
     completed := false; created := js "2026-11-01T09:05:00.000Z";
     completedAt := None |}.

(** An argument made of decimal digits only, and at least one. *)
Definition decimal_numeral (s : jsstring) : bool :=
  negb (List.length s =? 0)%nat && forallb JSON.is_digit s.

(** After the white space and the sign [parseInt] skips, the argument
    begins with a decimal digit. *)
Definition leading_digit (s : jsstring) : bool :=
  match snd (JSString.strip_sign (JSString.trimStart s)) with
  | c :: _ => JSON.is_digit c
  | [] => false
  end.

(** The non-flag arguments of [add], from which the title is made. *)
Definition plain_args (args : list jsstring) : list jsstring :=
  filter (fun arg => negb (JSString.startsWith arg (js "--"))) args.

(** The task [add] creates. *)
Definition new_task (e : env) (title priority : jsstring) : Task :=
  {| id := generateId e; title := title; priority := priority;
     completed := false; created := Date_toISOString e; completedAt := None |}.

(** The two lines [add] prints on success. *)
Definition added_lines (title priority : jsstring) : list line :=
  [Stdout (js "✅ Task added successfully!");
   Stdout (js "📋 " ++ JSString.dquote ++ title ++ JSString.dquote
             ++ js " (" ++ priority ++ js " priority)")].

(** The lines [list] prints for a non-empty selection. *)
Fixpoint numbered_from (tasks : list Task) (index : nat) : list line :=
  match tasks with
  | [] => []
  | t :: rest => Stdout (formatTask t index) :: numbered_from rest (S index)
  end.

(** Everything [list] prints after loading a non-empty store, for the
    name of the filter and the tasks it selects. *)
Definition listing (selection : jsstring) (selected : list Task) : list line :=
  [Stdout (js "📋 Tasks (" ++ selection ++ js "):"); Stdout []]
  ++ match selected with
     | [] => [Stdout (js "No " ++ selection ++ js " tasks found.")]
     | _ :: _ =>
         numbered_from selected 0
         ++ [Stdout [];
             Stdout (js "Total: " ++ JSString.toString (List.length selected)
                       ++ js " task(s)")]
     end.

(** The file is absent, cannot be read, or does not hold JSON. *)
Definition load_failure (w : world) : Prop :=
  match tasks_file w with
  | Absent => True
  | Unreadable _ => True
  | Content text => JSON.parse text = JSON.SyntaxError
  end.

Definition corrupt_world : world :=
  {| tasks_file := Content (js "[{ not json"); write_error := None; writes := 0 |}.

(** What [parse_chars] does with one more unit in front. *)
Definition prepend (c : N) (r : option (jsstring * jsstring)) :=
  match r with
  | Some (t, rest) => Some (c :: t, rest)
  | None => None
  end.

(** A value with no number in it. *)
Fixpoint number_free (v : JSON.json) : bool :=
  match v with
  | JSON.JNumber _ => false
  | JSON.JArray items => forallb number_free items
  | JSON.JObject members => forallb (fun m => number_free (snd m)) members
  | _ => true
  end.

(** The serialisation of [v], at any indentation, after any white space
    and before any text, is parsed as [v], leaving that text, as soon as the
    fuel covers the length of the serialisation. *)
Definition reads_back (v : JSON.json) : Prop :=
  number_free v = true ->
  forall (indent : nat) (pre rest : jsstring) (fuel : nat),
    forallb JSON.is_ws pre = true ->
    List.length (JSON.serialize indent v) <= fuel ->
    JSON.parse_value fuel (pre ++ JSON.serialize indent v ++ rest)
    = JSON.Parsed v rest.

(** With this fuel, whatever the parser reads leaves a shorter text. *)
Definition consumes (fuel : nat) : Prop :=
  (forall s v rest, JSON.parse_value fuel s = JSON.Parsed v rest ->
                    List.length rest < List.length s)
  /\ (forall s vs rest, JSON.parse_items fuel s = JSON.Parsed vs rest ->
                        List.length rest < List.length s)
  /\ (forall s ms rest, JSON.parse_members fuel s = JSON.Parsed ms rest ->
                        List.length rest < List.length s).

(** This fuel is enough for every text it covers twice over. *)
Definition suffices (fuel : nat) : Prop :=
  (forall s, 2 * List.length s + 2 <= fuel -> JSON.parse_value fuel s <> JSON.OutOfFuel)
  /\ (forall s, 2 * List.length s + 3 <= fuel ->
                JSON.parse_items fuel s <> JSON.OutOfFuel)
  /\ (forall s, 2 * List.length s + 3 <= fuel ->
                JSON.parse_members fuel s <> JSON.OutOfFuel).


(** ** Auxiliary definitions for the further properties *)

(** The task [complete] writes in place of [task]. *)
Definition completed_now (e : env) (task : Task) : Task :=
  {| id := id task; title := title task; priority := priority task;
     completed := true; created := created task;
     completedAt := Some (Date_toISOString e) |}.

(** The two lines [complete] and [remove] print on success. *)
Definition completed_lines (task : Task) : list line :=
  [Stdout (js "✅ Task completed!");
   Stdout (js "📋 " ++ JSString.dquote ++ title task ++ JSString.dquote)].

Definition removed_lines (task : Task) : list line :=
  [Stdout (js "🗑️  Task removed!");
   Stdout (js "📋 " ++ JSString.dquote ++ title task ++ JSString.dquote)].

(** The priority [add] takes from its arguments; [None] is [undefined]. *)
Definition flag_priority (args : list jsstring) : option jsstring :=
  match find (fun arg => JSString.startsWith arg (js "--priority=")) args with
  | Some arg => nth_error (JSString.split arg 61) 1
  | None => Some (js "low")
  end.

(** [process.argv] for the arguments given on the command line. *)
Definition argv (args : list jsstring) : list jsstring :=
  js "/usr/bin/node" :: js "/usr/local/bin/taskly" :: args.

(** A world in which the file holds [tasks] and cannot be written. *)
Definition locked_store_of (tasks : list Task) : world :=
  {| tasks_file := Content (JSON.stringify (json_of_tasks tasks));
     write_error := Some (js "EACCES: permission denied"); writes := 0 |}.

(** The environment of [sample_env] with another reading of the date. *)
Definition later_env : env :=
  {| Date_now := Date_now sample_env;
     Math_random_36 := Math_random_36 sample_env;
     Date_toISOString := js "2026-11-03T10:00:00.001Z";
     SyntaxError_message := SyntaxError_message sample_env |}.

(** The spellings [main] answers with the help text, and those it answers
    with the version. *)
Definition help_spellings : list jsstring := [js "help"; js "--help"; js "-h"].
Definition version_spellings : list jsstring := [js "--version"; js "-v"].

(** The keys of [commands]. *)
Definition own_commands : list jsstring :=
  [js "add"; js "list"; js "complete"; js "remove"; js "init"; js "help"].

(** The names [commands] inherits from [Object.prototype]: those whose call
    returns, and those whose call throws. *)
Definition inherited_quiet : list jsstring :=
  [js "constructor"; js "hasOwnProperty"; js "isPrototypeOf";
   js "propertyIsEnumerable"; js "toString"; js "toLocaleString";
   js "valueOf"; js "__lookupGetter__"; js "__lookupSetter__"].

Definition inherited_throwing : list jsstring :=
  [js "__proto__"; js "__defineGetter__"; js "__defineSetter__"].

(** Every name for which [main] finds something to do. *)
Definition known_names : list jsstring :=
  help_spellings ++ version_spellings ++ own_commands
  ++ inherited_quiet ++ inherited_throwing.

(** The commands that call [saveTasks]. *)
Definition writing_commands : list jsstring :=
  [js "add"; js "complete"; js "remove"].

(** A run of [main] that leaves the world as it found it and sets only
    timers whose callbacks do so too. *)
Definition harmless (m : M (list timer)) : Prop :=
  forall w out,
    match m w out with
    | Return timers w' _ => w' = w /\ Forall (fun t => read_only (snd t)) timers
    | r => final_world r = w
    end.

(** A [package.json] that cannot be read or does not hold JSON. *)
Definition package_failure (package_json : file_state) : Prop :=
  match package_json with
  | Absent => True
  | Unreadable _ => True
  | Content text => JSON.parse text = JSON.SyntaxError
  end.

(** A [package.json] with a name and a version. *)
Definition sample_package : file_state :=
  Content (JSON.stringify
             (JSON.JObject [(js "name", JSON.JString (js "taskly"));
                            (js "version", JSON.JString (js "1.0.0"))])).

(** A member of [package.json] that lets Node run [cli.js] as a CommonJS
    script: [type], when given, is the string [commonjs], and [name], when
    given, is a string. *)
Definition commonjs_member (member : jsstring * JSON.json) : bool :=
  if JSString.eqb (fst member) (js "type") then
    match snd member with
    | JSON.JString type => JSString.eqb type (js "commonjs")
    | _ => false
    end
  else if JSString.eqb (fst member) (js "name") then
    match snd member with
    | JSON.JString _ => true
    | _ => false
    end
  else true.

(** A [package.json] with which Node starts [cli.js] as a CommonJS script.
    Node reads the file beside the script before it runs it: it does not
    start the script when the file does not hold JSON or gives [name] or
    [type] another value than a string, and when [type] is [module] it runs
    the script as an ES module, in which [require] is not defined.  Here
    the file holds a JSON object whose members all pass [commonjs_member]. *)
Definition commonjs_package (package_json : file_state) : bool :=
  match package_json with
  | Content text =>
      match JSON.parse text with
      | JSON.Parsed (JSON.JObject members) _ => forallb commonjs_member members
      | _ => false
      end
  | _ => false
  end.

(** * Properties *)

(** ** Strings *)

Lemma eqb_eq (a b : jsstring) : JSString.eqb a b = true <-> a = b.
Proof.
  revert b; induction a as [|x a IH]; intros [|y b]; simpl; split;
    try congruence; try reflexivity.
  - intros H. apply andb_true_iff in H as [Hx Hab].
    apply N.eqb_eq in Hx. apply IH in Hab. congruence.
  - intros H. injection H as -> ->. rewrite N.eqb_refl. simpl. now apply IH.
Qed.

Lemma eqb_refl (a : jsstring) : JSString.eqb a a = true.
Proof. now apply eqb_eq. Qed.

Lemma includes_In (arr : list jsstring) (s : jsstring) :
  JSString.includes arr s = true <-> In s arr.
Proof.
  unfold JSString.includes. rewrite existsb_exists. split.
  - intros (x & Hin & Heq). apply eqb_eq in Heq. now subst.
  - intros Hin. exists s. split; [assumption | apply eqb_refl].
Qed.

Lemma startsWith_app (p s : jsstring) : JSString.startsWith (p ++ s) p = true.
Proof.
  induction p as [|x p IH]; simpl; [reflexivity|].
  now rewrite N.eqb_refl, IH.
Qed.

Lemma find_first {A} (f : A -> bool) (before after : list A) (x : A) :
  (forall a, In a before -> f a = false) -> f x = true ->
  find f (before ++ x :: after) = Some x.
Proof.
  intros Hb Hx. induction before as [|b before IH]; simpl.
  - now rewrite Hx.
  - rewrite (Hb b) by now left. apply IH. intros a Ha. apply Hb. now right.
Qed.

Lemma find_absent {A} (f : A -> bool) (l : list A) :
  (forall a, In a l -> f a = false) -> find f l = None.
Proof.
  intros H. induction l as [|x l IH]; simpl; [reflexivity|].
  rewrite (H x) by now left. apply IH. intros a Ha. apply H. now right.
Qed.

Lemma split_nonempty (s : jsstring) (c : N) : JSString.split s c <> [].
Proof.
  destruct s as [|x r]; simpl; [discriminate|].
  destruct (x =? c)%N; [discriminate|].
  destruct (JSString.split r c); discriminate.
Qed.

(** Splitting after a prefix that has no separator in it. *)
Lemma split_prefix (p v : jsstring) (c : N) :
  forallb (fun x => negb (x =? c)%N) p = true ->
  JSString.split (p ++ c :: v) c = p :: JSString.split v c.
Proof.
  induction p as [|x p IH]; simpl; intros Hp.
  - now rewrite N.eqb_refl.
  - apply andb_true_iff in Hp as [Hx Hp]. apply negb_true_iff in Hx.
    rewrite Hx, (IH Hp). reflexivity.
Qed.

Lemma split_no_separator (v : jsstring) (c : N) :
  forallb (fun x => negb (x =? c)%N) v = true -> JSString.split v c = [v].
Proof.
  induction v as [|x v IH]; simpl; intros Hv; [reflexivity|].
  apply andb_true_iff in Hv as [Hx Hv]. apply negb_true_iff in Hx.
  now rewrite Hx, (IH Hv).
Qed.

(** [arg.split('=')[1]] for [arg] the flag [--priority=v]: the text of [v]
    up to its first [=]. *)
Lemma priority_flag_value (v : jsstring) :
  nth_error (JSString.split (js "--priority=" ++ v) 61) 1
  = Some (hd [] (JSString.split v 61)).
Proof.
  change (js "--priority=") with (js "--priority" ++ [61%N]).
  rewrite <- app_assoc. simpl app at 2. rewrite split_prefix by reflexivity.
  simpl. pose proof (split_nonempty v 61).
  destruct (JSString.split v 61); [contradiction|reflexivity].
Qed.

Lemma parseInt_no_leading_digit (s : jsstring) :
  leading_digit s = false -> JSString.parseInt s = None.
Proof.
  unfold leading_digit, JSString.parseInt.
  destruct (JSString.strip_sign (JSString.trimStart s)) as [sign s1]. simpl.
  destruct s1 as [|c r]; [reflexivity|]. intros Hc.
  assert (Hd : JSString.digit_value 10 c = None).
  { unfold JSString.digit_value. unfold JSON.is_digit in Hc. rewrite Hc.
    destruct ((97 <=? c)%N && (c <=? 122)%N) eqn:Hl.
    - apply andb_true_iff in Hl as [H1 H2]. apply N.leb_le in H1.
      replace (c - 87 <? 10)%N with false; [reflexivity|].
      symmetry. apply N.ltb_ge. lia.
    - destruct ((65 <=? c)%N && (c <=? 90)%N) eqn:Hu; [|reflexivity].
      apply andb_true_iff in Hu as [H1 H2]. apply N.leb_le in H1.
      replace (c - 55 <? 10)%N with false; [reflexivity|].
      symmetry. apply N.ltb_ge. lia. }
  assert (Hp : JSString.strip_hex_prefix (c :: r) = (10%N, c :: r)).
  { unfold JSString.strip_hex_prefix. destruct r as [|x r]; [reflexivity|].
    destruct (c =? 48)%N eqn:E; [|reflexivity].
    apply N.eqb_eq in E. subst c. discriminate Hc. }
  rewrite Hp. simpl. now rewrite Hd.
Qed.

(** The line printed for the task at position [i] of the selection carries
    the number [i + 1]. *)
Lemma numbered_from_nth (tasks : list Task) (start i : nat) :
  nth_error (numbered_from tasks start) i
  = option_map (fun t => Stdout (formatTask t (start + i))) (nth_error tasks i).
Proof.
  revert start i. induction tasks as [|t tasks IH]; intros start [|i]; simpl;
    try reflexivity.
  - now rewrite Nat.add_0_r.
  - rewrite IH. now rewrite Nat.add_succ_r.
Qed.

(** ** The store is read without being touched *)

(** [loadTasks] returns some tasks or leaves the model; it never throws,
    never ends the process and never changes the world. *)
Lemma loadTasks_cases (e : env) (w : world) (out : list line) :
  (exists tasks, loadTasks e w out = Return tasks w (out ++ load_report e w))
  \/ loadTasks e w out = Unmodelled w out.
Proof.
  unfold loadTasks, load_report, try_catch, bind, fs_existsSync, fs_readFileSync,
    JSON_parse, as_tasks, console_error, ret.
  destruct (tasks_file w) as [|message|text] eqn:E; simpl; rewrite ?E; simpl.
  - left. exists []. now rewrite app_nil_r.
  - left. now exists [].
  - destruct (JSON.parse text) as [v rest| |]; simpl.
    + destruct (tasks_of_json v) as [tasks|].
      * left. exists tasks. now rewrite app_nil_r.
      * now right.
    + left. now exists [].
    + now right.
Qed.

Lemma read_only_ret {A} (a : A) : read_only (ret a).
Proof. now intros w out. Qed.

Lemma read_only_console_log s : read_only (console_log s).
Proof. now intros w out. Qed.

Lemma read_only_console_error s : read_only (console_error s).
Proof. now intros w out. Qed.

Lemma read_only_bind {A B} (m : M A) (k : A -> M B) :
  read_only m -> (forall a, read_only (k a)) -> read_only (bind m k).
Proof.
  intros Hm Hk w out. unfold bind. specialize (Hm w out).
  destruct (m w out) as [a w' o| msg w' o| c w' o| w' o]; simpl in *; subst;
    try reflexivity.
  apply Hk.
Qed.

Lemma read_only_loadTasks e : read_only (loadTasks e).
Proof.
  intros w out.
  destruct (loadTasks_cases e w out) as [[tasks H]|H]; now rewrite H.
Qed.

Lemma read_only_forEach {A} (arr : list A) (f : A -> nat -> M unit) :
  (forall x i, read_only (f x i)) -> read_only (forEach arr f).
Proof.
  intros Hf. unfold forEach. generalize 0.
  induction arr as [|x arr IH]; intros n; simpl.
  - apply read_only_ret.
  - apply read_only_bind; [apply Hf | intros _; apply IH].
Qed.

Create HintDb read_only.
#[local] Hint Resolve read_only_ret read_only_console_log read_only_console_error
  read_only_loadTasks : read_only.

(** C10: [list] never writes to the store.  Whatever the state of the file
    and whatever the arguments, the world after running [list] is the world
    before it: the same file and the same count of writes. *)
Theorem list_never_writes (e : env) (args : list jsstring) (w : world) :
  final_world (run (commands.list e args) w) = w.
Proof.
  unfold run. apply read_only_bind; auto with read_only.
  intros tasks. destruct (List.length tasks =? 0)%nat; auto with read_only.
  repeat (apply read_only_bind; auto with read_only; intros _).
  match goal with |- read_only (if ?b then _ else _) => destruct b end;
    auto with read_only.
  apply read_only_bind.
  - apply read_only_forEach. auto with read_only.
  - intros _. apply read_only_bind; auto with read_only.
Qed.

Lemma saveTasks_run (tasks : list Task) (w : world) (out : list line) :
  saveTasks tasks w out = Return tt (saved tasks w) (out ++ save_report w).
Proof.
  unfold saveTasks, try_catch, fs_writeFileSync, saved, save_report, console_error.
  destruct (write_error w) as [message|]; [reflexivity|].
  now rewrite app_nil_r.
Qed.

Ltac run_monad :=
  unfold run, bind, when, ret, console_log, console_error, process_exit, throw;
  cbn.

#[local] Arguments nth_error : simpl never.
#[local] Arguments JSString.includes : simpl never.
#[local] Arguments JSString.split : simpl never.
#[local] Arguments JSString.parseInt : simpl never.
#[local] Arguments JSString.toString : simpl never.
#[local] Arguments JSString.join : simpl never.

(** ** complete and remove *)

(** C5: [complete] on a task that is already completed prints the
    informational message, returns (exit status 0) and leaves the world as
    it was: the file is the same, so no field of any stored task changes,
    and the count of writes is the same, so no write is attempted. *)
Theorem complete_already_completed
    (e : env) (w : world) (arg : jsstring) (rest : list jsstring)
    (tasks : list Task) (report : list line) (n : Z) (task : Task) :
  run (loadTasks e) w = Return tasks w report ->
  JSString.parseInt arg = Some n ->
  (1 <= n <= Z.of_nat (List.length tasks))%Z ->
  nth_error tasks (Z.to_nat (n - 1)) = Some task ->
  completed task = true ->
  run (commands.complete e (arg :: rest)) w
  = Return tt w (report ++ [Stdout (js "ℹ️  Task is already completed!")]).
Proof.
  intros Hload Hn Hrange Hnth Hdone.
  unfold commands.complete. run_monad.
  unfold run in Hload. rewrite Hload, Hn. cbn.
  replace ((n <? 1)%Z || (Z.of_nat (List.length tasks) <? n)%Z) with false.
  2:{ symmetry. apply orb_false_iff. split; apply Z.ltb_ge; lia. }
  replace (n <? 1)%Z with false by (symmetry; apply Z.ltb_ge; lia).
  now rewrite Hnth, Hdone.
Qed.

Lemma complete_already_completed_witness :
  run (commands.complete sample_env [js "1"]) (store_of [task_A; task_B])
  = Return tt (store_of [task_A; task_B])
      [Stdout (js "ℹ️  Task is already completed!")].
Proof.
  assert (Hload : run (loadTasks sample_env) (store_of [task_A; task_B])
                  = Return [task_A; task_B] (store_of [task_A; task_B]) [])
    by (vm_compute; reflexivity).
  assert (Hn : JSString.parseInt (js "1") = Some 1%Z) by (vm_compute; reflexivity).
  assert (Hrange : (1 <= 1 <= Z.of_nat (List.length [task_A; task_B]))%Z)
    by (simpl; lia).
  exact (complete_already_completed sample_env _ (js "1") [] [task_A; task_B] [] 1
           task_A Hload Hn Hrange eq_refl eq_refl).
Defined.

(** C3 (amended): index validation of [complete] and [remove].  When
    [parseInt] of the first argument is NaN, less than 1 or greater than the
    number of stored tasks, both commands report the valid range, exit with
    status 1 and leave the world as it was.  This covers every argument
    with no leading digit after the white space and sign [parseInt] skips,
    such as [abc]. *)
Theorem index_validation
    (e : env) (w : world) (arg : jsstring) (rest : list jsstring)
    (tasks : list Task) (report : list line) :
  run (loadTasks e) w = Return tasks w report ->
  match JSString.parseInt arg with
  | None => True
  | Some n => (n < 1 \/ Z.of_nat (List.length tasks) < n)%Z
  end \/ leading_digit arg = false ->
  let rejection : outcome unit :=
    Exit 1 w (report ++ [Stderr (js "❌ Invalid task number. Use 1-"
                                   ++ JSString.toString (List.length tasks))]) in
  run (commands.complete e (arg :: rest)) w = rejection
  /\ run (commands.remove e (arg :: rest)) w = rejection.
Proof.
  intros Hload Hbad rejection.
  assert (Hinv : invalid_number (JSString.parseInt arg) (List.length tasks) = true).
  { destruct Hbad as [Hbad|Hbad].
    - unfold invalid_number. destruct (JSString.parseInt arg) as [n|]; [|reflexivity].
      apply orb_true_iff. destruct Hbad; [left|right]; apply Z.ltb_lt; lia.
    - now rewrite (parseInt_no_leading_digit _ Hbad). }
  unfold run in Hload.
  split; [unfold commands.complete | unfold commands.remove]; run_monad;
    rewrite Hload; cbn; rewrite Hinv; reflexivity.
Qed.

Lemma index_validation_witness :
  run (commands.complete sample_env [js "abc"]) (store_of [task_A; task_B])
  = Exit 1 (store_of [task_A; task_B]) [Stderr (js "❌ Invalid task number. Use 1-2")]
  /\ run (commands.remove sample_env [js "abc"]) (store_of [task_A; task_B])
     = Exit 1 (store_of [task_A; task_B]) [Stderr (js "❌ Invalid task number. Use 1-2")].
Proof.
  assert (Hload : run (loadTasks sample_env) (store_of [task_A; task_B])
                  = Return [task_A; task_B] (store_of [task_A; task_B]) [])
    by (vm_compute; reflexivity).
  assert (Hdigit : leading_digit (js "abc") = false) by (vm_compute; reflexivity).
  pose proof (index_validation sample_env _ (js "abc") [] _ _ Hload (or_intror Hdigit))
    as W.
  vm_compute in W. vm_compute. exact W.
Defined.

(** C3 as stated fails: [1abc] is not a numeric argument, yet [parseInt]
    reads it as 1, and on a store of one pending task [complete 1abc]
    returns with status 0 and rewrites the file. *)
Lemma non_numeric_argument_accepted :
  decimal_numeral (js "1abc") = false
  /\ exit_code (run (commands.complete sample_env [js "1abc"]) (store_of [task_B]))
     = Some 0
  /\ final_world (run (commands.complete sample_env [js "1abc"]) (store_of [task_B]))
     <> store_of [task_B].
Proof.
  split; [reflexivity|]. split; [vm_compute; reflexivity|].
  vm_compute. discriminate.
Qed.

(** ** add *)

(** C4 (amended): the priority [add] validates is that of the first
    argument starting with [--priority=], and of its value the text up to a
    further [=] (the whole value when it has none).  When that text is not
    [high], [medium] or [low], [add] reports it, exits with status 1 and
    leaves the world as it was: the store is not even read. *)
Theorem add_invalid_priority
    (e : env) (w : world) (before after : list jsstring) (v : jsstring) :
  (forall a, In a before -> JSString.startsWith a (js "--priority=") = false) ->
  JSString.includes [js "high"; js "medium"; js "low"]
    (hd [] (JSString.split v 61)) = false ->
  run (commands.add e (before ++ (js "--priority=" ++ v) :: after)) w
  = Exit 1 w [Stderr (js "❌ Priority must be: high, medium, or low")].
Proof.
  intros Hbefore Hvalue.
  unfold commands.add. run_monad.
  replace (List.length (before ++ (js "--priority=" ++ v) :: after) =? 0)%nat
    with false by (symmetry; apply Nat.eqb_neq; rewrite length_app; simpl; lia).
  rewrite (find_first _ before after _ Hbefore (startsWith_app _ _)).
  rewrite priority_flag_value, Hvalue. reflexivity.
Qed.

Lemma add_invalid_priority_witness :
  run (commands.add sample_env [js "A"; js "--priority=bogus"]) (store_of [task_B])
  = Exit 1 (store_of [task_B]) [Stderr (js "❌ Priority must be: high, medium, or low")].
Proof.
  assert (Hbefore : forall a, In a [js "A"] ->
                              JSString.startsWith a (js "--priority=") = false)
    by (intros a [<-|[]]; vm_compute; reflexivity).
  assert (Hvalue : JSString.includes [js "high"; js "medium"; js "low"]
                     (hd [] (JSString.split (js "bogus") 61)) = false)
    by (vm_compute; reflexivity).
  pose proof (add_invalid_priority sample_env (store_of [task_B]) [js "A"] []
                (js "bogus") Hbefore Hvalue) as W.
  vm_compute in W. vm_compute. exact W.
Defined.

(** C4 as stated fails: the first argument list below contains the flag
    [--priority=bogus], whose value is not a priority, yet [add] returns
    with status 0 and appends a task, because only the first
    [--priority=] argument is looked at; in the second the value [high=x]
    is not a priority either, and is read as [high]. *)
Lemma later_invalid_priority_accepted :
  In (js "--priority=bogus") [js "A"; js "--priority=high"; js "--priority=bogus"]
  /\ JSString.includes [js "high"; js "medium"; js "low"] (js "bogus") = false
  /\ run (commands.add sample_env [js "A"; js "--priority=high"; js "--priority=bogus"])
         empty_world
     = Return tt (saved [new_task sample_env (js "A") (js "high")] empty_world)
         (added_lines (js "A") (js "high"))
  /\ JSString.includes [js "high"; js "medium"; js "low"] (js "high=x") = false
  /\ run (commands.add sample_env [js "A"; js "--priority=high=x"]) empty_world
     = Return tt (saved [new_task sample_env (js "A") (js "high")] empty_world)
         (added_lines (js "A") (js "high")).
Proof.
  split; [right; right; left; reflexivity|].
  repeat split; vm_compute; reflexivity.
Qed.

(** C2 (the code departs from it): an argument list made of flags only is
    not empty, so it passes the usage check although its title is empty;
    [add] returns with status 0 and appends a task with an empty title. *)
Theorem add_flags_only_appends_untitled_task :
  JSString.join (plain_args [js "--priority=high"]) (js " ") = []
  /\ run (commands.add sample_env [js "--priority=high"]) empty_world
     = Return tt (saved [new_task sample_env [] (js "high")] empty_world)
         (added_lines [] (js "high"))
  /\ run (loadTasks sample_env) (saved [new_task sample_env [] (js "high")] empty_world)
     = Return [new_task sample_env [] (js "high")]
         (saved [new_task sample_env [] (js "high")] empty_world) [].
Proof. repeat split; vm_compute; reflexivity. Qed.

(** C9: in [add] the title is made of the arguments that do not start with
    [--], and a flag that is not a [--priority=] flag is ignored.  The
    priority is [low] when no argument starts with [--priority=], otherwise
    it is read from the first such argument; when it is a valid priority the
    task is appended to the stored ones and the command prints its
    confirmation and returns (exit status 0), whether the write succeeds or
    is reported as failed. *)
Theorem add_ignores_unknown_flags
    (e : env) (w : world) (args : list jsstring)
    (tasks : list Task) (report : list line) (p : jsstring) :
  args <> [] ->
  ((forall a, In a args -> JSString.startsWith a (js "--priority=") = false)
   /\ p = js "low")
  \/ (exists before v after,
        args = before ++ (js "--priority=" ++ v) :: after
        /\ (forall a, In a before -> JSString.startsWith a (js "--priority=") = false)
        /\ p = hd [] (JSString.split v 61)
        /\ JSString.includes [js "high"; js "medium"; js "low"] p = true) ->
  run (loadTasks e) w = Return tasks w report ->
  let title := JSString.join (plain_args args) (js " ") in
  (forall a, In a (plain_args args)
             <-> In a args /\ JSString.startsWith a (js "--") = false)
  /\ run (commands.add e args) w
     = Return tt (saved (tasks ++ [new_task e title p]) w)
         (report ++ save_report w ++ added_lines title p).
Proof.
  intros Hargs Hp Hload title. split.
  { intros a. unfold plain_args. rewrite filter_In, negb_true_iff. reflexivity. }
  unfold commands.add. run_monad.
  replace (List.length args =? 0)%nat with false
    by (symmetry; apply Nat.eqb_neq; destruct args; [congruence|discriminate]).
  assert (Hpriority :
    match find (fun arg => JSString.startsWith arg (js "--priority=")) args with
    | Some arg => nth_error (JSString.split arg 61) 1
    | None => Some (js "low")
    end = Some p
    /\ JSString.includes [js "high"; js "medium"; js "low"] p = true).
  { destruct Hp as [[Hnone ->]|(before & v & after & -> & Hbefore & -> & Hvalid)].
    - rewrite (find_absent _ _ Hnone). split; reflexivity.
    - rewrite (find_first _ before after _ Hbefore (startsWith_app _ _)).
      rewrite priority_flag_value. split; [reflexivity|exact Hvalid]. }
  destruct Hpriority as [-> Hvalid]. cbn. rewrite Hvalid. cbn.
  unfold run in Hload. rewrite Hload, saveTasks_run.
  unfold added_lines. rewrite <- !app_assoc. reflexivity.
Qed.

Lemma add_ignores_unknown_flags_witness :
  run (commands.add sample_env [js "Buy"; js "--urgent"; js "milk"; js "--priority"])
      (store_of [task_A])
  = Return tt (saved [task_A; new_task sample_env (js "Buy milk") (js "low")]
                 (store_of [task_A]))
      (added_lines (js "Buy milk") (js "low")).
Proof.
  assert (Hargs : [js "Buy"; js "--urgent"; js "milk"; js "--priority"] <> [])
    by discriminate.
  assert (Hflags : forall a,
             In a [js "Buy"; js "--urgent"; js "milk"; js "--priority"] ->
             JSString.startsWith a (js "--priority=") = false)
    by (intros a [<-|[<-|[<-|[<-|[]]]]]; vm_compute; reflexivity).
  assert (Hload : run (loadTasks sample_env) (store_of [task_A])
                  = Return [task_A] (store_of [task_A]) [])
    by (vm_compute; reflexivity).
  pose proof (proj2 (add_ignores_unknown_flags sample_env _ _ _ _ (js "low") Hargs
                       (or_introl (conj Hflags eq_refl)) Hload)) as W.
  vm_compute in W. vm_compute. exact W.
Defined.

(** ** list *)

Lemma forEach_prints (tasks : list Task) (index : nat) (w : world) (out : list line) :
  forEach_from tasks index (fun task i => console_log (formatTask task i)) w out
  = Return tt w (out ++ numbered_from tasks index).
Proof.
  revert index out. induction tasks as [|t tasks IH]; intros index out; simpl.
  - unfold ret. now rewrite app_nil_r.
  - unfold bind, console_log. rewrite IH. now rewrite <- app_assoc.
Qed.

Lemma list_run (e : env) (w : world) (args : list jsstring)
    (tasks : list Task) (report : list line) :
  run (loadTasks e) w = Return tasks w report ->
  tasks <> [] ->
  let selection := commands.list_filter args in
  let selected :=
    if JSString.eqb selection (js "completed") then filter (fun t => completed t) tasks
    else if JSString.eqb selection (js "pending")
         then filter (fun t => negb (completed t)) tasks
         else tasks in
  run (commands.list e args) w = Return tt w (report ++ listing selection selected).
Proof.
  intros Hload Hne selection selected.
  unfold commands.list. unfold run, bind at 1. unfold run in Hload. rewrite Hload.
  destruct tasks as [|t0 tasks0]; [congruence|].
  set (tasks := t0 :: tasks0) in *.
  change (List.length tasks =? 0)%nat with false. cbv iota.
  fold selection. fold selected. unfold listing.
  destruct selected as [|s0 sel0] eqn:Hsel.
  - unfold bind, console_log. cbn [List.length Nat.eqb].
    rewrite <- !app_assoc. reflexivity.
  - unfold bind, console_log, forEach. cbn [List.length Nat.eqb].
    rewrite forEach_prints. rewrite <- !app_assoc. reflexivity.
Qed.

(** With no filter flag the tasks are numbered by their position in the
    stored sequence: the line for the task at index [i] starts with
    [i + 1]. *)
Lemma list_unfiltered_numbering (e : env) (w : world) (args : list jsstring)
    (tasks : list Task) (report : list line) :
  run (loadTasks e) w = Return tasks w report ->
  tasks <> [] ->
  ~ In (js "--completed") args -> ~ In (js "--pending") args ->
  run (commands.list e args) w = Return tt w (report ++ listing (js "all") tasks)
  /\ forall i t, nth_error tasks i = Some t ->
       nth_error (numbered_from tasks 0) i
       = Some (Stdout (JSString.toString (i + 1) ++ js ". "
                         ++ (if completed t then js "✅" else js "📋") ++ js " "
                         ++ (if JSString.eqb (priority t) (js "high") then js "🔴"
                             else if JSString.eqb (priority t) (js "medium") then js "🟡"
                             else js "🟢")
                         ++ js " " ++ title t)).
Proof.
  intros Hload Hne Hc Hp. split.
  - rewrite (list_run e w args tasks report Hload Hne).
    unfold commands.list_filter.
    destruct (JSString.includes args (js "--completed")) eqn:E1;
      [apply includes_In in E1; contradiction|].
    destruct (JSString.includes args (js "--pending")) eqn:E2;
      [apply includes_In in E2; contradiction|].
    reflexivity.
  - intros i t Hi. rewrite numbered_from_nth, Hi. reflexivity.
Qed.

(** C8: when the arguments of [list] contain both [--completed] and
    [--pending], the filter is [completed]: on a non-empty store the
    listing is that of the completed tasks. *)
Theorem list_completed_wins (e : env) (w : world) (args : list jsstring)
    (tasks : list Task) (report : list line) :
  In (js "--completed") args ->
  In (js "--pending") args ->
  run (loadTasks e) w = Return tasks w report ->
  commands.list_filter args = js "completed"
  /\ (tasks <> [] ->
      run (commands.list e args) w
      = Return tt w
          (report ++ listing (js "completed") (filter (fun t => completed t) tasks))).
Proof.
  intros Hc _ Hload.
  assert (Hf : commands.list_filter args = js "completed").
  { unfold commands.list_filter. apply includes_In in Hc. now rewrite Hc. }
  split; [exact Hf|]. intros Hne.
  rewrite (list_run e w args tasks report Hload Hne), Hf. reflexivity.
Qed.

Lemma list_completed_wins_witness :
  commands.list_filter [js "--pending"; js "--completed"] = js "completed"
  /\ run (commands.list sample_env [js "--pending"; js "--completed"])
         (store_of [task_A; task_B])
     = Return tt (store_of [task_A; task_B])
         [Stdout (js "📋 Tasks (completed):"); Stdout [];
          Stdout (js "1. ✅ 🔴 A"); Stdout [];
          Stdout (js "Total: 1 task(s)")].
Proof.
  assert (Hc : In (js "--completed") [js "--pending"; js "--completed"])
    by (right; left; reflexivity).
  assert (Hp : In (js "--pending") [js "--pending"; js "--completed"])
    by (left; reflexivity).
  assert (Hload : run (loadTasks sample_env) (store_of [task_A; task_B])
                  = Return [task_A; task_B] (store_of [task_A; task_B]) [])
    by (vm_compute; reflexivity).
  destruct (list_completed_wins sample_env _ _ _ _ Hc Hp Hload) as [W1 W2].
  split; [exact W1|].
  assert (Hne : [task_A; task_B] <> []) by discriminate.
  specialize (W2 Hne). vm_compute in W2. vm_compute. exact W2.
Defined.

(** C1 (the code departs from it): under a filter the number printed is the
    position in the filtered selection.  With [A] completed and [B] pending
    stored in this order, [list --pending] prints [B] with the number 1,
    although [B] is at index 1 of the stored sequence (number 2, as the
    unfiltered [list] prints it) and [complete 1] addresses [A]. *)
Theorem filtered_list_renumbers :
  nth_error [task_A; task_B] 1 = Some task_B
  /\ run (commands.list sample_env [js "--pending"]) (store_of [task_A; task_B])
     = Return tt (store_of [task_A; task_B])
         [Stdout (js "📋 Tasks (pending):"); Stdout [];
          Stdout (js "1. 📋 🟢 B"); Stdout [];
          Stdout (js "Total: 1 task(s)")]
  /\ run (commands.list sample_env []) (store_of [task_A; task_B])
     = Return tt (store_of [task_A; task_B])
         [Stdout (js "📋 Tasks (all):"); Stdout [];
          Stdout (js "1. ✅ 🔴 A"); Stdout (js "2. 📋 🟢 B"); Stdout [];
          Stdout (js "Total: 2 task(s)")]
  /\ run (commands.complete sample_env [js "1"]) (store_of [task_A; task_B])
     = Return tt (store_of [task_A; task_B])
         [Stdout (js "ℹ️  Task is already completed!")].
Proof. repeat split; vm_compute; reflexivity. Qed.

(** ** loadTasks *)

(** C7: when the file is absent, cannot be read or does not parse,
    [loadTasks] returns the empty sequence; it does not throw or end the
    process.  Nothing is printed for an absent file; a read or parse failure
    is reported by one line on the error channel.  Whatever the handler does
    next, it does with the empty sequence. *)
Theorem load_failure_absorbed (e : env) (w : world) :
  load_failure w ->
  run (loadTasks e) w = Return [] w (load_report e w)
  /\ (tasks_file w = Absent -> load_report e w = [])
  /\ (tasks_file w <> Absent ->
      exists message,
        load_report e w = [Stderr (js "❌ Error loading tasks: " ++ message)])
  /\ forall (A : Type) (k : list Task -> M A) (out : list line),
       (tasks <- loadTasks e ;; k tasks) w out = k [] w (out ++ load_report e w).
Proof.
  intros Hfail.
  assert (Hrun : forall out, loadTasks e w out = Return [] w (out ++ load_report e w)).
  { intros out. unfold load_failure in Hfail.
    unfold loadTasks, load_report, try_catch, bind, fs_existsSync, fs_readFileSync,
      JSON_parse, as_tasks, console_error, ret.
    destruct (tasks_file w) as [|message|text] eqn:E; cbn; rewrite ?E; cbn.
    - now rewrite app_nil_r.
    - reflexivity.
    - rewrite Hfail. reflexivity. }
  split; [apply (Hrun [])|]. split; [|split].
  - intros E. unfold load_report. now rewrite E.
  - intros Hpresent. unfold load_report. unfold load_failure in Hfail.
    destruct (tasks_file w) as [|message|text]; [congruence| |].
    + now exists message.
    + rewrite Hfail. now exists (SyntaxError_message e text).
  - intros A k out. unfold bind. now rewrite Hrun.
Qed.

Lemma load_failure_absorbed_witness :
  run (loadTasks sample_env) corrupt_world
  = Return [] corrupt_world
      [Stderr (js "❌ Error loading tasks: Unexpected token in JSON")]
  /\ run (commands.list sample_env []) corrupt_world
     = Return tt corrupt_world
         [Stderr (js "❌ Error loading tasks: Unexpected token in JSON");
          Stdout (js "📋 No tasks found. Add some with " ++ JSString.dquote
                    ++ js "taskly add <task>" ++ JSString.dquote)].
Proof.
  assert (Hfail : load_failure corrupt_world) by (vm_compute; reflexivity).
  destruct (load_failure_absorbed sample_env corrupt_world Hfail) as (W1 & _ & _ & W2).
  split.
  - vm_compute in W1. vm_compute. exact W1.
  - specialize (W2 unit (fun tasks =>
      if (List.length tasks =? 0)%nat then
        console_log (js "📋 No tasks found. Add some with " ++ JSString.dquote
                       ++ js "taskly add <task>" ++ JSString.dquote)
      else ret tt) []).
    vm_compute in W2. vm_compute. exact W2.
Defined.

(** ** JSON: what [stringify] writes, [parse] reads back *)

Section JSONRoundTrip.
Import JSON.
Local Open Scope N_scope.

Lemma hex_unit_value (d : N) : d < 16 -> hex_value (hex_unit d) = Some d.
Proof.
  intros H. destruct d as [|p]; [reflexivity|].
  repeat (destruct p as [p|p|]; try reflexivity; try (exfalso; lia)).
Qed.

Lemma hex_digits_value (c : N) :
  c / 4096 * 4096 + c / 256 mod 16 * 256 + c / 16 mod 16 * 16 + c mod 16 = c.
Proof.
  replace (c / 4096) with (c / 16 / 16 / 16) by (rewrite !N.Div0.div_div; reflexivity).
  replace (c / 256) with (c / 16 / 16) by (rewrite !N.Div0.div_div; reflexivity).
  pose proof (N.Div0.div_mod c 16) as H1.
  pose proof (N.Div0.div_mod (c / 16) 16) as H2.
  pose proof (N.Div0.div_mod (c / 16 / 16) 16) as H3.
  remember (c / 16 / 16 / 16) as q3. remember (c / 16 / 16) as q2.
  remember (c / 16) as q1.
  remember (c mod 16) as r1. remember (q1 mod 16) as r2. remember (q2 mod 16) as r3.
  lia.
Qed.

Lemma unicode_escape_parse (c : N) (s : jsstring) :
  c < 65536 ->
  parse_chars (unicode_escape c ++ s) = prepend c (parse_chars s).
Proof.
  intros Hc. unfold unicode_escape, prepend. cbn [app parse_chars].
  change (92 =? 34) with false. change (92 =? 92) with true.
  change (117 =? 117) with true. cbv iota.
  rewrite !hex_unit_value.
  - rewrite hex_digits_value. reflexivity.
  - apply N.mod_lt. discriminate.
  - apply N.mod_lt. discriminate.
  - apply N.mod_lt. discriminate.
  - apply N.Div0.div_lt_upper_bound. lia.
Qed.

Lemma literal_unit_parse (c : N) (s : jsstring) :
  32 <= c -> c <> 34 -> c <> 92 ->
  parse_chars (c :: s) = prepend c (parse_chars s).
Proof.
  intros H32 H34 H92. cbn [parse_chars].
  apply N.eqb_neq in H34, H92. rewrite H34, H92.
  replace (c <? 32) with false by (symmetry; apply N.ltb_ge; lia).
  reflexivity.
Qed.

Lemma escape_unit_parse (c : N) (s : jsstring) :
  parse_chars (escape_unit c ++ s) = prepend c (parse_chars s).
Proof.
  unfold escape_unit.
  destruct (N.eqb_spec c 8) as [->|H8]; [reflexivity|].
  destruct (N.eqb_spec c 9) as [->|H9]; [reflexivity|].
  destruct (N.eqb_spec c 10) as [->|H10]; [reflexivity|].
  destruct (N.eqb_spec c 12) as [->|H12]; [reflexivity|].
  destruct (N.eqb_spec c 13) as [->|H13]; [reflexivity|].
  destruct (N.eqb_spec c 34) as [->|H34]; [reflexivity|].
  destruct (N.eqb_spec c 92) as [->|H92]; [reflexivity|].
  destruct (N.ltb_spec c 32) as [Hlt|Hge].
  - apply unicode_escape_parse. lia.
  - now apply literal_unit_parse.
Qed.

Lemma surrogate_bounds (c : N) :
  is_high_surrogate c || is_low_surrogate c = true -> 0xD800 <= c < 65536.
Proof.
  unfold is_high_surrogate, is_low_surrogate. intros H.
  apply orb_true_iff in H as [H|H]; apply andb_true_iff in H as [H1 H2];
    apply N.leb_le in H1, H2; lia.
Qed.

Lemma parse_chars_quote_bounded (n : nat) (s rest : jsstring) :
  (List.length s <= n)%nat ->
  parse_chars (quote_units s ++ 34 :: rest) = Some (s, rest).
Proof.
  revert s. induction n as [|n IH]; intros [|c r] Hlen; simpl in Hlen;
    try reflexivity; try lia.
  assert (IHr : parse_chars (quote_units r ++ 34 :: rest) = Some (r, rest))
    by (apply IH; lia).
  cbn [quote_units].
  destruct (is_high_surrogate c) eqn:Hh.
  - pose proof (surrogate_bounds c) as Hc. rewrite Hh in Hc. specialize (Hc eq_refl).
    destruct r as [|d r'].
    + rewrite unicode_escape_parse by lia. reflexivity.
    + destruct (is_low_surrogate d) eqn:Hl.
      * pose proof (surrogate_bounds d) as Hd. rewrite Hl, orb_true_r in Hd.
        specialize (Hd eq_refl). cbn [app].
        rewrite literal_unit_parse by lia. rewrite literal_unit_parse by lia.
        rewrite IH by (simpl in Hlen; lia). reflexivity.
      * rewrite <- app_assoc, unicode_escape_parse by lia. now rewrite IHr.
  - destruct (is_low_surrogate c) eqn:Hl.
    + pose proof (surrogate_bounds c) as Hc. rewrite Hl, orb_true_r in Hc.
      specialize (Hc eq_refl).
      rewrite <- app_assoc, unicode_escape_parse by lia. now rewrite IHr.
    + rewrite <- app_assoc, escape_unit_parse. now rewrite IHr.
Qed.

(** A quoted string is read back as the string. *)
Lemma parse_chars_quote (s rest : jsstring) :
  parse_chars (quote_units s ++ 34 :: rest) = Some (s, rest).
Proof. apply (parse_chars_quote_bounded (List.length s)). lia. Qed.

(** Induction on a value, with the property available for the items of an
    array and the values of an object. *)
Lemma json_nested_ind (P : json -> Prop) :
  P JNull ->
  (forall b, P (JBool b)) ->
  (forall lexeme, P (JNumber lexeme)) ->
  (forall s, P (JString s)) ->
  (forall items, Forall P items -> P (JArray items)) ->
  (forall members, Forall (fun m => P (snd m)) members -> P (JObject members)) ->
  forall v, P v.
Proof.
  intros Hnull Hbool Hnum Hstr Harr Hobj.
  fix IH 1. intros [ |b|lexeme|s|items|members].
  - exact Hnull.
  - apply Hbool.
  - apply Hnum.
  - apply Hstr.
  - apply Harr. induction items as [|x items IHitems]; constructor.
    + apply IH.
    + exact IHitems.
  - apply Hobj. induction members as [|m members IHmembers]; constructor.
    + apply IH.
    + exact IHmembers.
Qed.

Lemma skip_ws_app (pre s : jsstring) :
  forallb is_ws pre = true -> skip_ws (pre ++ s) = skip_ws s.
Proof.
  induction pre as [|c pre IH]; simpl; intros H; [reflexivity|].
  apply andb_true_iff in H as [Hc Hpre]. rewrite Hc. now apply IH.
Qed.

Lemma newline_is_ws (n : nat) : forallb is_ws (newline n) = true.
Proof. unfold newline. simpl. induction n; simpl; auto. Qed.

Lemma parse_value_ws (fuel : nat) (pre s : jsstring) :
  forallb is_ws pre = true -> parse_value fuel (pre ++ s) = parse_value fuel s.
Proof. intros H. destruct fuel; simpl; [reflexivity|]. now rewrite skip_ws_app. Qed.

Lemma join_cons (p : jsstring) (ps : list jsstring) (sep : jsstring) :
  JSString.join (p :: ps) sep
  = p ++ match ps with [] => [] | _ :: _ => sep ++ JSString.join ps sep end.
Proof. destruct ps; simpl; [now rewrite app_nil_r | reflexivity]. Qed.

(** The first unit of a serialised value opens a literal, a string, an
    array or an object. *)
Lemma serialize_head (indent : nat) (v : json) :
  number_free v = true ->
  exists c t, serialize indent v = c :: t /\ In c [110; 116; 102; 34; 91; 123].
Proof.
  destruct v as [ |[|]|lexeme|s|[|x items]|[|m members]]; simpl; intros H;
    try discriminate; eexists; eexists; (split; [reflexivity|]); simpl; tauto.
Qed.

Lemma skip_ws_head (c : N) (t : jsstring) :
  In c [110; 116; 102; 34; 91; 123] -> skip_ws (c :: t) = c :: t.
Proof.
  simpl. intros [<-|[<-|[<-|[<-|[<-|[<-|[]]]]]]]; reflexivity.
Qed.

Lemma parse_items_serialize (inner outer : nat) (items : list json) :
  Forall reads_back items ->
  forallb number_free items = true ->
  items <> [] ->
  forall (fuel : nat) (rest : jsstring),
    (List.length (JSString.join (map (serialize inner) items) (44%N :: newline inner))
     + 1 <= fuel)%nat ->
    parse_items fuel
      (newline inner
       ++ JSString.join (map (serialize inner) items) (44 :: newline inner)
       ++ newline outer ++ 93 :: rest)
    = Parsed items rest.
Proof.
  induction items as [|x xs IH]; [congruence|].
  intros HP Hnf _ fuel rest Hfuel.
  inversion HP as [|? ? Hx Hxs]; subst.
  cbn [forallb] in Hnf. apply andb_true_iff in Hnf as [Hnx Hnxs].
  cbn [map] in *. rewrite join_cons in *. rewrite length_app in Hfuel.
  destruct fuel as [|fuel]; [lia|]. cbn [parse_items].
  destruct xs as [|y ys].
  - cbn [map] in *. rewrite app_nil_r in *.
    rewrite (Hx Hnx inner (newline inner) (newline outer ++ 93 :: rest) fuel
               (newline_is_ws inner)) by lia.
    rewrite skip_ws_app by apply newline_is_ws. reflexivity.
  - cbn [map] in *. rewrite <- !app_assoc.
    rewrite (Hx Hnx inner (newline inner) _ fuel (newline_is_ws inner)) by lia.
    cbn [app skip_ws]. change (is_ws 44) with false. cbv iota.
    change (44 =? 44) with true. cbv iota.
    rewrite IH; [reflexivity|assumption|assumption|discriminate|].
    rewrite length_app in Hfuel. cbn [List.length] in Hfuel. lia.
Qed.

Lemma parse_members_serialize (inner outer : nat) (members : list (jsstring * json)) :
  Forall (fun m => reads_back (snd m)) members ->
  forallb (fun m => number_free (snd m)) members = true ->
  members <> [] ->
  forall (fuel : nat) (rest : jsstring),
    (List.length
       (JSString.join
          (map (fun m => quote (fst m) ++ [58; 32]%N ++ serialize inner (snd m)) members)
          (44%N :: newline inner))
     + 1 <= fuel)%nat ->
    parse_members fuel
      (newline inner
       ++ JSString.join
            (map (fun m => quote (fst m) ++ [58; 32] ++ serialize inner (snd m)) members)
            (44 :: newline inner)
       ++ newline outer ++ 125 :: rest)
    = Parsed members rest.
Proof.
  induction members as [|[k v] ms IH]; [congruence|].
  intros HP Hnf _ fuel rest Hfuel.
  inversion HP as [|? ? Hv Hms]; subst. cbn [snd] in Hv.
  cbn [forallb snd] in Hnf. apply andb_true_iff in Hnf as [Hnv Hnms].
  cbn [map fst snd] in *. rewrite join_cons in *.
  rewrite !length_app in Hfuel. cbn [List.length] in Hfuel.
  destruct fuel as [|fuel]; [lia|]. cbn [parse_members].
  rewrite skip_ws_app by apply newline_is_ws.
  unfold quote at 1. rewrite <- !app_assoc. cbn [app skip_ws].
  rewrite <- !app_assoc. cbn [app].
  change (is_ws 34) with false. cbv iota. change (34 =? 34) with true. cbv iota.
  rewrite parse_chars_quote. cbn [skip_ws]. change (is_ws 58) with false. cbv iota.
  change (58 =? 58) with true. cbv iota.
  change (32 :: serialize inner v ++ ?tail) with ([32] ++ serialize inner v ++ tail).
  destruct ms as [|m' ms']; cbn [map] in *.
  - rewrite (Hv Hnv inner [32] _ fuel eq_refl) by lia.
    cbn [app]. rewrite skip_ws_app by apply newline_is_ws. reflexivity.
  - rewrite (Hv Hnv inner [32] _ fuel eq_refl) by lia.
    cbn [app skip_ws]. change (is_ws 44) with false. cbv iota.
    change (44 =? 44) with true. cbv iota. rewrite <- ?app_assoc.
    rewrite IH; [reflexivity|assumption|assumption|discriminate|].
    rewrite length_app in Hfuel. cbn [List.length] in Hfuel. lia.
Qed.

Lemma skip_ws_items (inner : nat) (items : list json) (sep tail : jsstring) :
  items <> [] ->
  forallb number_free items = true ->
  exists d rest0,
    skip_ws (newline inner ++ JSString.join (map (serialize inner) items) sep ++ tail)
    = d :: rest0 /\ (d =? 93) = false.
Proof.
  destruct items as [|x xs]; [congruence|]. intros _ Hnf.
  cbn [forallb] in Hnf. apply andb_true_iff in Hnf as [Hx _].
  destruct (serialize_head inner x Hx) as (c & t & Hc & Hin).
  rewrite skip_ws_app by apply newline_is_ws.
  cbn [map]. rewrite join_cons, Hc. rewrite <- !app_assoc. cbn [app].
  rewrite (skip_ws_head c _ Hin). eexists. eexists. split; [reflexivity|].
  simpl in Hin. destruct Hin as [<-|[<-|[<-|[<-|[<-|[<-|[]]]]]]]; reflexivity.
Qed.

Lemma skip_ws_members (inner : nat) (members : list (jsstring * json))
    (sep tail : jsstring) :
  members <> [] ->
  exists rest0,
    skip_ws (newline inner
             ++ JSString.join
                  (map (fun m => quote (fst m) ++ [58; 32] ++ serialize inner (snd m))
                       members) sep
             ++ tail)
    = 34 :: rest0.
Proof.
  destruct members as [|m ms]; [congruence|]. intros _.
  rewrite skip_ws_app by apply newline_is_ws.
  cbn [map]. rewrite join_cons. unfold quote at 1. rewrite <- !app_assoc.
  cbn [app skip_ws]. change (is_ws 34) with false. cbv iota.
  eexists. reflexivity.
Qed.

(** Every value without numbers is read back from its serialisation. *)
Lemma parse_serialize (v : json) : reads_back v.
Proof.
  induction v as [ |b|lexeme|s|items IH|members IH] using json_nested_ind;
    intros Hnf indent pre rest fuel Hpre Hfuel; try discriminate;
    rewrite parse_value_ws by assumption.
  - destruct fuel as [|fuel]; [simpl in Hfuel; lia|]. reflexivity.
  - destruct fuel as [|fuel]; [destruct b; simpl in Hfuel; lia|].
    destruct b; reflexivity.
  - destruct fuel as [|fuel]; [simpl in Hfuel; lia|].
    cbn [serialize]. unfold quote. cbn [app parse_value skip_ws].
    rewrite <- !app_assoc. cbn [app].
    change (is_ws 34) with false. cbv iota. change (34 =? 34) with true. cbv iota.
    now rewrite parse_chars_quote.
  - destruct items as [|x xs].
    { destruct fuel as [|fuel]; [simpl in Hfuel; lia|]. reflexivity. }
    set (items := x :: xs) in *.
    assert (Htext : serialize indent (JArray items)
                    = [91] ++ newline (indent + 2)
                      ++ JSString.join (map (serialize (indent + 2)) items)
                           (44 :: newline (indent + 2))
                      ++ newline indent ++ [93]) by reflexivity.
    rewrite Htext in *. clear Htext.
    rewrite !length_app in Hfuel. cbn [List.length] in Hfuel.
    destruct fuel as [|fuel]; [lia|].
    rewrite <- !app_assoc.
    cbn [app parse_value skip_ws]. change (is_ws 91) with false. cbv iota.
    change (91 =? 34) with false. change (91 =? 91) with true. cbv iota.
    destruct (skip_ws_items (indent + 2) items (44 :: newline (indent + 2))
                (newline indent ++ 93 :: rest)) as (d & rest0 & Hd & H93);
      [discriminate|exact Hnf|].
    rewrite Hd, H93.
    rewrite parse_items_serialize;
      [reflexivity|assumption|exact Hnf|discriminate|lia].
  - destruct members as [|m ms].
    { destruct fuel as [|fuel]; [simpl in Hfuel; lia|]. reflexivity. }
    set (members := m :: ms) in *.
    assert (Htext : serialize indent (JObject members)
                    = [123] ++ newline (indent + 2)
                      ++ JSString.join
                           (map (fun m => quote (fst m) ++ [58; 32]
                                          ++ serialize (indent + 2) (snd m)) members)
                           (44 :: newline (indent + 2))
                      ++ newline indent ++ [125]) by reflexivity.
    rewrite Htext in *. clear Htext.
    rewrite !length_app in Hfuel. cbn [List.length] in Hfuel.
    destruct fuel as [|fuel]; [lia|].
    rewrite <- !app_assoc.
    set (body := JSString.join _ _) in *.
    cbn [app parse_value skip_ws]. change (is_ws 123) with false. cbv iota.
    change (123 =? 34) with false. change (123 =? 91) with false.
    change (123 =? 123) with true. cbv iota. subst body.
    destruct (skip_ws_members (indent + 2) members (44 :: newline (indent + 2))
                (newline indent ++ 125 :: rest)) as (rest0 & Hd); [discriminate|].
    rewrite Hd. change (34 =? 125) with false. cbv iota.
    rewrite parse_members_serialize;
      [reflexivity|assumption|exact Hnf|discriminate|lia].
Qed.

(** [JSON.parse(JSON.stringify(v, null, 2))] is [v]. *)
Lemma parse_stringify (v : json) :
  number_free v = true -> parse (stringify v) = Parsed v [].
Proof.
  intros Hnf. unfold parse, stringify.
  pose proof (parse_serialize v Hnf 0%nat [] []
                (2 * List.length (serialize 0 v) + 2)%nat eq_refl) as H.
  cbn [app] in H. rewrite app_nil_r in H. rewrite H by lia. reflexivity.
Qed.

End JSONRoundTrip.

(** ** saveTasks, then loadTasks *)

Lemma json_of_tasks_number_free (tasks : list Task) :
  number_free (json_of_tasks tasks) = true.
Proof.
  unfold json_of_tasks. cbn [number_free].
  induction tasks as [|t tasks IH]; [reflexivity|].
  cbn [map forallb]. rewrite IH, andb_true_r.
  destruct t as [i ti p c cr [ca|]]; reflexivity.
Qed.

Lemma task_of_json_of_task (t : Task) : task_of_json (json_of_task t) = Some t.
Proof. destruct t as [i ti p c cr [ca|]]; reflexivity. Qed.

Lemma tasks_of_json_of_tasks (tasks : list Task) :
  tasks_of_json (json_of_tasks tasks) = Some tasks.
Proof.
  unfold json_of_tasks. cbn [tasks_of_json].
  induction tasks as [|t tasks IH]; [reflexivity|].
  cbn [map tasks_of_items]. now rewrite task_of_json_of_task, IH.
Qed.

(** Loading a file that holds what [saveTasks tasks] writes. *)
Lemma loadTasks_saved (e : env) (w : world) (tasks : list Task) (out : list line) :
  tasks_file w = Content (JSON.stringify (json_of_tasks tasks)) ->
  loadTasks e w out = Return tasks w out.
Proof.
  intros Hfile.
  unfold loadTasks, try_catch, bind, fs_existsSync, fs_readFileSync, JSON_parse,
    as_tasks.
  cbv beta. rewrite Hfile. cbv beta iota. rewrite Hfile. cbv beta iota.
  rewrite (parse_stringify _ (json_of_tasks_number_free tasks)).
  cbv beta iota. now rewrite tasks_of_json_of_tasks.
Qed.

(** C6: saving a sequence of task records and then loading gives back the
    same records, with the same fields and values, in the same order, and
    nothing is reported; this holds within one run and for a load in any
    later world where the file still holds what the save has written.  The
    write is assumed to succeed. *)
Theorem save_then_load (e : env) (w : world) (tasks : list Task) :
  write_error w = None ->
  run (saveTasks tasks ;; loadTasks e) w = Return tasks (saved tasks w) []
  /\ final_world (run (saveTasks tasks) w) = saved tasks w
  /\ forall w', tasks_file w' = tasks_file (saved tasks w) ->
                run (loadTasks e) w' = Return tasks w' [].
Proof.
  intros Hw.
  assert (Hsave : saveTasks tasks w [] = Return tt (saved tasks w) []).
  { rewrite saveTasks_run. unfold save_report. now rewrite Hw. }
  assert (Hfile : tasks_file (saved tasks w)
                  = Content (JSON.stringify (json_of_tasks tasks))).
  { unfold saved. cbn [tasks_file]. now rewrite Hw. }
  unfold run. repeat split.
  - unfold bind. rewrite Hsave. now apply loadTasks_saved.
  - now rewrite Hsave.
  - intros w' Hw'. apply loadTasks_saved. congruence.
Qed.

Lemma save_then_load_witness :
  run (saveTasks [task_A; task_B] ;; loadTasks sample_env) corrupt_world
  = Return [task_A; task_B] (saved [task_A; task_B] corrupt_world) [].
Proof.
  exact (proj1 (save_then_load sample_env corrupt_world [task_A; task_B] eq_refl)).
Defined.

(** ** The fuel of [JSON.parse] is enough *)

Section ParseFuel.
Import JSON.
Local Open Scope N_scope.

Lemma skip_ws_length (s : jsstring) : (List.length (skip_ws s) <= List.length s)%nat.
Proof.
  induction s as [|c r IH]; simpl; [lia|].
  destruct (is_ws c); simpl; lia.
Qed.

Lemma skip_ws_cons_length (s r : jsstring) (c : N) :
  skip_ws s = c :: r -> (List.length r < List.length s)%nat.
Proof. intros H. pose proof (skip_ws_length s) as L. rewrite H in L. simpl in L. lia. Qed.

Lemma parse_chars_shorter_bounded (n : nat) (s t rest : jsstring) :
  (List.length s <= n)%nat ->
  parse_chars s = Some (t, rest) -> (List.length rest < List.length s)%nat.
Proof.
  revert s t. induction n as [|n IH]; intros [|c r] t Hn; simpl in Hn;
    try discriminate; try lia.
  cbn [parse_chars].
  destruct (c =? 34); [intros [= <- <-]; simpl; lia|].
  destruct (c =? 92).
  - destruct r as [|e r1]; [discriminate|].
    destruct (e =? 117).
    + destruct r1 as [|h1 [|h2 [|h3 [|h4 r2]]]]; try discriminate.
      destruct (hex_value h1), (hex_value h2), (hex_value h3), (hex_value h4);
        try discriminate.
      destruct (parse_chars r2) as [[t' rest']|] eqn:E; [|discriminate].
      intros [= <- <-]. apply IH in E; simpl in *; lia.
    + destruct (simple_escape e); [|discriminate].
      destruct (parse_chars r1) as [[t' rest']|] eqn:E; [|discriminate].
      intros [= <- <-]. apply IH in E; simpl in *; lia.
  - destruct (c <? 32); [discriminate|].
    destruct (parse_chars r) as [[t' rest']|] eqn:E; [|discriminate].
    intros [= <- <-]. apply IH in E; simpl in *; lia.
Qed.

Lemma parse_chars_shorter (s t rest : jsstring) :
  parse_chars s = Some (t, rest) -> (List.length rest < List.length s)%nat.
Proof. apply (parse_chars_shorter_bounded (List.length s)). lia. Qed.

Lemma span_digits_length (s : jsstring) :
  (List.length (snd (span_digits s)) <= List.length s)%nat.
Proof.
  induction s as [|c r IH]; simpl; [lia|].
  destruct (is_digit c); [|simpl; lia].
  destruct (span_digits r); simpl in *; lia.
Qed.

Lemma scan_digits1_length (s d rest : jsstring) :
  scan_digits1 s = Some (d, rest) -> (List.length rest <= List.length s)%nat.
Proof.
  unfold scan_digits1. pose proof (span_digits_length s) as L.
  destruct (span_digits s) as [[|x d'] rest']; [discriminate|].
  intros [= <- <-]. exact L.
Qed.

Lemma scan_number_shorter (s lexeme rest : jsstring) :
  scan_number s = Some (lexeme, rest) -> (List.length rest < List.length s)%nat.
Proof.
  unfold scan_number.
  set (p := match s with
            | c :: r => if c =? 45 then ([c], r) else ([], s)
            | [] => ([], s)
            end).
  assert (Hp : (List.length (snd p) <= List.length s)%nat).
  { subst p. destruct s as [|c r]; simpl; [lia|]. destruct (c =? 45); simpl; lia. }
  destruct p as [neg s1]. cbn [snd] in Hp.
  destruct (scan_int s1) as [[i s2]|] eqn:Hi; [|discriminate].
  assert (H2 : (List.length s2 < List.length s1)%nat).
  { unfold scan_int in Hi. destruct s1 as [|c r]; [discriminate|].
    destruct (c =? 48); [injection Hi as <- <-; simpl; lia|].
    destruct (is_digit c); [|discriminate].
    pose proof (span_digits_length r) as L. destruct (span_digits r) as [d rest'].
    injection Hi as <- <-. simpl in *. lia. }
  destruct (scan_frac s2) as [[f s3]|] eqn:Hf; [|discriminate].
  assert (H3 : (List.length s3 <= List.length s2)%nat).
  { unfold scan_frac in Hf. destruct s2 as [|c r]; [injection Hf as <- <-; simpl; lia|].
    destruct (c =? 46); [|injection Hf as <- <-; simpl; lia].
    destruct (scan_digits1 r) as [[d rest']|] eqn:Hd; [|discriminate].
    injection Hf as <- <-. apply scan_digits1_length in Hd. simpl. lia. }
  destruct (scan_exp s3) as [[e s4]|] eqn:He; [|discriminate].
  assert (H4 : (List.length s4 <= List.length s3)%nat).
  { unfold scan_exp in He. destruct s3 as [|c r]; [injection He as <- <-; simpl; lia|].
    destruct ((c =? 101) || (c =? 69)); [|injection He as <- <-; simpl; lia].
    set (q := match r with
              | x :: r1 => if (x =? 43) || (x =? 45) then ([x], r1) else ([], r)
              | [] => ([], r)
              end) in He.
    assert (Hq : (List.length (snd q) <= List.length r)%nat).
    { subst q. destruct r as [|x r1]; simpl; [lia|].
      destruct ((x =? 43) || (x =? 45)); simpl; lia. }
    destruct q as [sg r']. cbn [snd] in Hq.
    destruct (scan_digits1 r') as [[d rest']|] eqn:Hd; [|discriminate].
    injection He as <- <-. apply scan_digits1_length in Hd. simpl. lia. }
  intros [= <- <-]. lia.
Qed.

Lemma startsWith_length (s p : jsstring) :
  JSString.startsWith s p = true -> (List.length p <= List.length s)%nat.
Proof.
  revert s. induction p as [|x p IH]; intros s; simpl; [lia|].
  destruct s as [|y s]; [discriminate|].
  intros H. apply andb_true_iff in H as [_ H]. apply IH in H. simpl. lia.
Qed.

Lemma skipn_shorter {A} (n : nat) (s : list A) :
  (0 < n <= List.length s)%nat -> (List.length (skipn n s) < List.length s)%nat.
Proof. intros H. rewrite length_skipn. lia. Qed.

Lemma parse_literal_shorter (s : jsstring) (v : json) (rest : jsstring) :
  parse_literal s = Parsed v rest -> (List.length rest < List.length s)%nat.
Proof.
  unfold parse_literal.
  destruct (JSString.startsWith s [116; 114; 117; 101]) eqn:E1.
  { apply startsWith_length in E1. intros [= <- <-].
    apply (skipn_shorter 4 s). simpl in E1. lia. }
  destruct (JSString.startsWith s [102; 97; 108; 115; 101]) eqn:E2.
  { apply startsWith_length in E2. intros [= <- <-].
    apply (skipn_shorter 5 s). simpl in E2. lia. }
  destruct (JSString.startsWith s [110; 117; 108; 108]) eqn:E3.
  { apply startsWith_length in E3. intros [= <- <-].
    apply (skipn_shorter 4 s). simpl in E3. lia. }
  destruct (scan_number s) as [[lexeme rest']|] eqn:E4; [|discriminate].
  intros [= <- <-]. now apply scan_number_shorter in E4.
Qed.

Lemma parse_literal_fuel (s : jsstring) : parse_literal s <> OutOfFuel.
Proof.
  unfold parse_literal.
  repeat match goal with |- context [if ?b then _ else _] => destruct b end;
    try discriminate.
  destruct (scan_number s) as [[? ?]|]; discriminate.
Qed.

Lemma parse_consumes (fuel : nat) : consumes fuel.
Proof.
  induction fuel as [|f (IHv & IHi & IHm)]; [repeat split; discriminate|].
  repeat split.
  - intros s v rest. cbn [parse_value].
    destruct (skip_ws s) as [|c r] eqn:Hs; [discriminate|].
    pose proof (skip_ws_cons_length _ _ _ Hs) as Lr.
    destruct (c =? 34).
    { destruct (parse_chars r) as [[str rest']|] eqn:E; [|discriminate].
      intros [= <- <-]. apply parse_chars_shorter in E. lia. }
    destruct (c =? 91).
    { destruct (skip_ws r) as [|d rest0] eqn:Hr; [discriminate|].
      pose proof (skip_ws_cons_length _ _ _ Hr).
      destruct (d =? 93); [intros [= <- <-]; lia|].
      destruct (parse_items f r) as [vs rest'| |] eqn:E; try discriminate.
      intros [= <- <-]. apply IHi in E. lia. }
    destruct (c =? 123).
    { destruct (skip_ws r) as [|d rest0] eqn:Hr; [discriminate|].
      pose proof (skip_ws_cons_length _ _ _ Hr).
      destruct (d =? 125); [intros [= <- <-]; lia|].
      destruct (parse_members f r) as [ms rest'| |] eqn:E; try discriminate.
      intros [= <- <-]. apply IHm in E. lia. }
    intros E. apply parse_literal_shorter in E.
    pose proof (skip_ws_length s) as L. rewrite Hs in L. lia.
  - intros s vs rest. cbn [parse_items].
    destruct (parse_value f s) as [v rest1| |] eqn:E1; try discriminate.
    apply IHv in E1.
    destruct (skip_ws rest1) as [|d rest'] eqn:Hr; [discriminate|].
    pose proof (skip_ws_cons_length _ _ _ Hr).
    destruct (d =? 44).
    { destruct (parse_items f rest') as [vs' rest''| |] eqn:E2; try discriminate.
      intros [= <- <-]. apply IHi in E2. lia. }
    destruct (d =? 93); [|discriminate]. intros [= <- <-]. lia.
  - intros s ms rest. cbn [parse_members].
    destruct (skip_ws s) as [|q r] eqn:Hs; [discriminate|].
    pose proof (skip_ws_cons_length _ _ _ Hs).
    destruct (q =? 34); [|discriminate].
    destruct (parse_chars r) as [[key rest0]|] eqn:Ek; [|discriminate].
    apply parse_chars_shorter in Ek.
    destruct (skip_ws rest0) as [|col rest1] eqn:H0; [discriminate|].
    pose proof (skip_ws_cons_length _ _ _ H0).
    destruct (col =? 58); [|discriminate].
    destruct (parse_value f rest1) as [v rest2| |] eqn:E1; try discriminate.
    apply IHv in E1.
    destruct (skip_ws rest2) as [|d rest3] eqn:H2; [discriminate|].
    pose proof (skip_ws_cons_length _ _ _ H2).
    destruct (d =? 44).
    { destruct (parse_members f rest3) as [ms' rest4| |] eqn:E2; try discriminate.
      intros [= <- <-]. apply IHm in E2. lia. }
    destruct (d =? 125); [|discriminate]. intros [= <- <-]. lia.
Qed.

Lemma parse_fuel_suffices (fuel : nat) : suffices fuel.
Proof.
  induction fuel as [|f (IHv & IHi & IHm)]; [repeat split; intros s H; lia|].
  destruct (parse_consumes f) as (Cv & Ci & Cm).
  repeat split.
  - intros s Hf. cbn [parse_value].
    destruct (skip_ws s) as [|c r] eqn:Hs; [discriminate|].
    pose proof (skip_ws_cons_length _ _ _ Hs) as Lr.
    destruct (c =? 34).
    { destruct (parse_chars r) as [[str rest']|]; discriminate. }
    destruct (c =? 91).
    { destruct (skip_ws r) as [|d rest0]; [discriminate|].
      destruct (d =? 93); [discriminate|].
      specialize (IHi r). destruct (parse_items f r); try discriminate.
      exfalso. apply IHi; [lia|reflexivity]. }
    destruct (c =? 123).
    { destruct (skip_ws r) as [|d rest0]; [discriminate|].
      destruct (d =? 125); [discriminate|].
      specialize (IHm r). destruct (parse_members f r); try discriminate.
      exfalso. apply IHm; [lia|reflexivity]. }
    apply parse_literal_fuel.
  - intros s Hf. cbn [parse_items].
    specialize (IHv s).
    destruct (parse_value f s) as [v rest1| |] eqn:E1; try discriminate.
    2:{ exfalso. apply IHv; [lia|reflexivity]. }
    apply Cv in E1.
    destruct (skip_ws rest1) as [|d rest'] eqn:Hr; [discriminate|].
    pose proof (skip_ws_cons_length _ _ _ Hr).
    destruct (d =? 44).
    { specialize (IHi rest'). destruct (parse_items f rest'); try discriminate.
      exfalso. apply IHi; [lia|reflexivity]. }
    destruct (d =? 93); discriminate.
  - intros s Hf. cbn [parse_members].
    destruct (skip_ws s) as [|q r] eqn:Hs; [discriminate|].
    pose proof (skip_ws_cons_length _ _ _ Hs).
    destruct (q =? 34); [|discriminate].
    destruct (parse_chars r) as [[key rest0]|] eqn:Ek; [|discriminate].
    apply parse_chars_shorter in Ek.
    destruct (skip_ws rest0) as [|col rest1] eqn:H0; [discriminate|].
    pose proof (skip_ws_cons_length _ _ _ H0).
    destruct (col =? 58); [|discriminate].
    specialize (IHv rest1).
    destruct (parse_value f rest1) as [v rest2| |] eqn:E1; try discriminate.
    2:{ exfalso. apply IHv; [lia|reflexivity]. }
    apply Cv in E1.
    destruct (skip_ws rest2) as [|d rest3] eqn:H2; [discriminate|].
    pose proof (skip_ws_cons_length _ _ _ H2).
    destruct (d =? 44).
    { specialize (IHm rest3). destruct (parse_members f rest3); try discriminate.
      exfalso. apply IHm; [lia|reflexivity]. }
    destruct (d =? 125); discriminate.
Qed.

(** [JSON.parse] never runs out of fuel: it returns a value or reports a
    syntax error. *)
Lemma parse_total (text : jsstring) : parse text <> OutOfFuel.
Proof.
  unfold parse.
  destruct (parse_fuel_suffices (2 * List.length text + 2)) as (Hv & _ & _).
  specialize (Hv text (Nat.le_refl _)).
  destruct (parse_value (2 * List.length text + 2) text) as [v rest| |];
    [|discriminate|congruence].
  destruct (skip_ws rest); discriminate.
Qed.

End ParseFuel.

(** ** Where the model ends *)

(** [loadTasks] leaves the model only on a file that holds valid JSON other
    than an array of task records. *)
Lemma loadTasks_unmodelled (e : env) (w : world) (out : list line) :
  loadTasks e w out = Unmodelled w out
  <-> exists text v rest,
        tasks_file w = Content text
        /\ JSON.parse text = JSON.Parsed v rest
        /\ tasks_of_json v = None.
Proof.
  unfold loadTasks, try_catch, bind, fs_existsSync, fs_readFileSync, JSON_parse,
    as_tasks, console_error, ret.
  destruct (tasks_file w) as [|message|text] eqn:E; cbn; rewrite ?E; cbn.
  - split; [discriminate|]. intros (? & ? & ? & H & _). discriminate.
  - split; [discriminate|]. intros (? & ? & ? & H & _). discriminate.
  - pose proof (parse_total text) as Htotal.
    destruct (JSON.parse text) as [v rest| |] eqn:Ep; cbn; [| |congruence].
    + destruct (tasks_of_json v) as [tasks|] eqn:Et; split; try discriminate.
      * intros (text' & v' & rest' & [= <-] & Hp & Hn). congruence.
      * intros _. now exists text, v, rest.
      * reflexivity.
    + split; [discriminate|]. intros (text' & v' & rest' & [= <-] & Hp & _).
      congruence.
Qed.

(** * Further properties *)

(** ** Array updates *)

Lemma assign_length {A} (arr : list A) (i : nat) (x : A) :
  List.length (assign arr i x) = List.length arr.
Proof.
  revert i. induction arr as [|y arr IH]; intros [|i]; simpl; auto.
Qed.

Lemma assign_same {A} (arr : list A) (i : nat) (x : A) :
  i < List.length arr -> nth_error (assign arr i x) i = Some x.
Proof.
  revert i. induction arr as [|y arr IH]; intros [|i] H; simpl in *; try lia.
  - reflexivity.
  - apply IH. lia.
Qed.

Lemma assign_other {A} (arr : list A) (i j : nat) (x : A) :
  j <> i -> nth_error (assign arr i x) j = nth_error arr j.
Proof.
  revert i j. induction arr as [|y arr IH]; intros [|i] [|j] H; simpl;
    try reflexivity; try congruence.
  apply IH. congruence.
Qed.

Lemma splice1_length {A} (arr : list A) (i : nat) :
  i < List.length arr -> S (List.length (splice1 arr i)) = List.length arr.
Proof.
  intros H. unfold splice1. rewrite length_app, length_firstn, length_skipn. lia.
Qed.

Lemma splice1_before {A} (arr : list A) (i j : nat) :
  j < i -> i < List.length arr -> nth_error (splice1 arr i) j = nth_error arr j.
Proof.
  intros Hj Hi. unfold splice1.
  rewrite nth_error_app1 by (rewrite length_firstn; lia).
  rewrite nth_error_firstn.
  now replace (j <? i) with true by (symmetry; apply Nat.ltb_lt; lia).
Qed.

Lemma splice1_after {A} (arr : list A) (i j : nat) :
  i <= j -> i < List.length arr -> nth_error (splice1 arr i) j = nth_error arr (S j).
Proof.
  intros Hj Hi. unfold splice1.
  rewrite nth_error_app2 by (rewrite length_firstn; lia).
  rewrite length_firstn, nth_error_skipn. f_equal. lia.
Qed.

(** ** complete and remove on a valid number *)

Lemma valid_number (tasks : list Task) (n : Z) :
  (1 <= n <= Z.of_nat (List.length tasks))%Z ->
  invalid_number (Some n) (List.length tasks) = false
  /\ at_number tasks (Some n) = nth_error tasks (Z.to_nat (n - 1))
  /\ Z.to_nat (n - 1) < List.length tasks.
Proof.
  intros H. unfold invalid_number, at_number.
  replace (n <? 1)%Z with false by (symmetry; apply Z.ltb_ge; lia).
  replace (Z.of_nat (List.length tasks) <? n)%Z with false
    by (symmetry; apply Z.ltb_ge; lia).
  repeat split. lia.
Qed.

Lemma complete_run (e : env) (w : world) (arg : jsstring) (rest : list jsstring)
    (tasks : list Task) (report : list line) (n : Z) (task : Task) :
  run (loadTasks e) w = Return tasks w report ->
  JSString.parseInt arg = Some n ->
  (1 <= n <= Z.of_nat (List.length tasks))%Z ->
  nth_error tasks (Z.to_nat (n - 1)) = Some task ->
  run (commands.complete e (arg :: rest)) w
  = if completed task
    then Return tt w (report ++ [Stdout (js "ℹ️  Task is already completed!")])
    else Return tt (saved (assign tasks (Z.to_nat (n - 1)) (completed_now e task)) w)
           (report ++ save_report w ++ completed_lines task).
Proof.
  intros Hload Hn Hrange Hnth.
  destruct (valid_number tasks n Hrange) as (Hvalid & Hat & _).
  unfold commands.complete. run_monad.
  unfold run in Hload. rewrite Hload, Hn. cbn -[invalid_number at_number].
  rewrite Hvalid, Hat, Hnth. cbn.
  destruct (completed task); [reflexivity|].
  rewrite saveTasks_run. unfold completed_lines, completed_now. cbn.
  rewrite <- !app_assoc. reflexivity.
Qed.

Lemma remove_run (e : env) (w : world) (arg : jsstring) (rest : list jsstring)
    (tasks : list Task) (report : list line) (n : Z) (task : Task) :
  run (loadTasks e) w = Return tasks w report ->
  JSString.parseInt arg = Some n ->
  (1 <= n <= Z.of_nat (List.length tasks))%Z ->
  nth_error tasks (Z.to_nat (n - 1)) = Some task ->
  run (commands.remove e (arg :: rest)) w
  = Return tt (saved (splice1 tasks (Z.to_nat (n - 1))) w)
      (report ++ save_report w ++ removed_lines task).
Proof.
  intros Hload Hn Hrange Hnth.
  destruct (valid_number tasks n Hrange) as (Hvalid & Hat & _).
  unfold commands.remove. run_monad.
  unfold run in Hload. rewrite Hload, Hn. cbn -[invalid_number at_number].
  rewrite Hvalid, Hat, Hnth. cbn.
  rewrite saveTasks_run. unfold removed_lines. cbn.
  rewrite <- !app_assoc. reflexivity.
Qed.

(** X1: [complete] on a pending task rewrites the store with that task
    marked completed at the current time and nothing else changed: the
    sequence keeps its length, the task keeps its id, title, priority and
    creation time, and every other task is the one that was there. *)
Theorem complete_marks_only_that_task
    (e : env) (w : world) (arg : jsstring) (rest : list jsstring)
    (tasks : list Task) (report : list line) (n : Z) (task : Task) :
  run (loadTasks e) w = Return tasks w report ->
  JSString.parseInt arg = Some n ->
  (1 <= n <= Z.of_nat (List.length tasks))%Z ->
  nth_error tasks (Z.to_nat (n - 1)) = Some task ->
  completed task = false ->
  exists tasks',
    run (commands.complete e (arg :: rest)) w
    = Return tt (saved tasks' w) (report ++ save_report w ++ completed_lines task)
    /\ List.length tasks' = List.length tasks
    /\ nth_error tasks' (Z.to_nat (n - 1))
       = Some {| id := id task; title := title task; priority := priority task;
                 completed := true; created := created task;
                 completedAt := Some (Date_toISOString e) |}
    /\ forall j, j <> Z.to_nat (n - 1) -> nth_error tasks' j = nth_error tasks j.
Proof.
  intros Hload Hn Hrange Hnth Hpending.
  exists (assign tasks (Z.to_nat (n - 1)) (completed_now e task)).
  rewrite (complete_run e w arg rest tasks report n task Hload Hn Hrange Hnth), Hpending.
  split; [reflexivity|]. split; [apply assign_length|]. split.
  - apply assign_same. now apply valid_number.
  - intros j Hj. now apply assign_other.
Qed.

Lemma complete_marks_only_that_task_witness :
  exists tasks',
    run (commands.complete sample_env [js "2"]) (store_of [task_A; task_B])
    = Return tt (saved tasks' (store_of [task_A; task_B])) (completed_lines task_B)
    /\ nth_error tasks' 0 = Some task_A.
Proof.
  assert (Hload : run (loadTasks sample_env) (store_of [task_A; task_B])
                  = Return [task_A; task_B] (store_of [task_A; task_B]) [])
    by (vm_compute; reflexivity).
  assert (Hn : JSString.parseInt (js "2") = Some 2%Z) by (vm_compute; reflexivity).
  assert (Hrange : (1 <= 2 <= Z.of_nat (List.length [task_A; task_B]))%Z)
    by (simpl; lia).
  destruct (complete_marks_only_that_task sample_env _ (js "2") [] _ _ 2 task_B
              Hload Hn Hrange eq_refl eq_refl) as (tasks' & Hrun & _ & _ & Hother).
  exists tasks'. split; [exact Hrun|].
  rewrite (Hother 0%nat) by discriminate. reflexivity.
Defined.

(** X2: completing the same task again is a no-op.  After a [complete] whose
    write succeeded, a second [complete] with the same argument, at any
    later time, prints the informational line and leaves the world, with
    the completion time recorded by the first run, as it is. *)
Theorem complete_twice_is_noop
    (e e' : env) (w : world) (arg : jsstring) (rest rest' : list jsstring)
    (tasks : list Task) (report : list line) (n : Z) (task : Task) :
  run (loadTasks e) w = Return tasks w report ->
  JSString.parseInt arg = Some n ->
  (1 <= n <= Z.of_nat (List.length tasks))%Z ->
  nth_error tasks (Z.to_nat (n - 1)) = Some task ->
  completed task = false ->
  write_error w = None ->
  let w1 := final_world (run (commands.complete e (arg :: rest)) w) in
  run (commands.complete e' (arg :: rest')) w1
  = Return tt w1 [Stdout (js "ℹ️  Task is already completed!")]
  /\ run (loadTasks e') w1
     = Return (assign tasks (Z.to_nat (n - 1)) (completed_now e task)) w1 [].
Proof.
  intros Hload Hn Hrange Hnth Hpending Hw w1.
  set (tasks1 := assign tasks (Z.to_nat (n - 1)) (completed_now e task)).
  assert (Hw1 : w1 = saved tasks1 w).
  { subst w1. now rewrite (complete_run e w arg rest tasks report n task Hload Hn
                             Hrange Hnth), Hpending. }
  assert (Hload1 : run (loadTasks e') w1 = Return tasks1 w1 []).
  { apply loadTasks_saved. rewrite Hw1. unfold saved. cbn [tasks_file].
    now rewrite Hw. }
  split; [|exact Hload1].
  assert (Hrange1 : (1 <= n <= Z.of_nat (List.length tasks1))%Z)
    by (unfold tasks1; now rewrite assign_length).
  assert (Hnth1 : nth_error tasks1 (Z.to_nat (n - 1)) = Some (completed_now e task))
    by (apply assign_same; now apply valid_number).
  now rewrite (complete_run e' w1 arg rest' tasks1 [] n _ Hload1 Hn Hrange1 Hnth1).
Qed.

Lemma complete_twice_is_noop_witness :
  let w1 := final_world (run (commands.complete sample_env [js "2"])
                           (store_of [task_A; task_B])) in
  run (commands.complete sample_env [js "2"]) w1
  = Return tt w1 [Stdout (js "ℹ️  Task is already completed!")].
Proof.
  assert (Hload : run (loadTasks sample_env) (store_of [task_A; task_B])
                  = Return [task_A; task_B] (store_of [task_A; task_B]) [])
    by (vm_compute; reflexivity).
  assert (Hn : JSString.parseInt (js "2") = Some 2%Z) by (vm_compute; reflexivity).
  assert (Hrange : (1 <= 2 <= Z.of_nat (List.length [task_A; task_B]))%Z)
    by (simpl; lia).
  exact (proj1 (complete_twice_is_noop sample_env sample_env _ (js "2") [] [] _ _ 2
                  task_B Hload Hn Hrange eq_refl eq_refl eq_refl)).
Defined.

(** X3: [remove] on a valid number rewrites the store without the task at
    that position and prints its title: the sequence is one shorter, the
    tasks before the position stay where they were and every later task
    moves down by one. *)
Theorem remove_deletes_only_that_task
    (e : env) (w : world) (arg : jsstring) (rest : list jsstring)
    (tasks : list Task) (report : list line) (n : Z) (task : Task) :
  run (loadTasks e) w = Return tasks w report ->
  JSString.parseInt arg = Some n ->
  (1 <= n <= Z.of_nat (List.length tasks))%Z ->
  nth_error tasks (Z.to_nat (n - 1)) = Some task ->
  exists tasks',
    run (commands.remove e (arg :: rest)) w
    = Return tt (saved tasks' w) (report ++ save_report w ++ removed_lines task)
    /\ S (List.length tasks') = List.length tasks
    /\ (forall j, j < Z.to_nat (n - 1) -> nth_error tasks' j = nth_error tasks j)
    /\ (forall j, Z.to_nat (n - 1) <= j -> nth_error tasks' j = nth_error tasks (S j)).
Proof.
  intros Hload Hn Hrange Hnth.
  destruct (valid_number tasks n Hrange) as (_ & _ & Hlt).
  exists (splice1 tasks (Z.to_nat (n - 1))).
  rewrite (remove_run e w arg rest tasks report n task Hload Hn Hrange Hnth).
  split; [reflexivity|]. split; [now apply splice1_length|]. split.
  - intros j Hj. now apply splice1_before.
  - intros j Hj. now apply splice1_after.
Qed.

Lemma remove_deletes_only_that_task_witness :
  exists tasks',
    run (commands.remove sample_env [js "1"]) (store_of [task_A; task_B])
    = Return tt (saved tasks' (store_of [task_A; task_B])) (removed_lines task_A)
    /\ nth_error tasks' 0 = Some task_B.
Proof.
  assert (Hload : run (loadTasks sample_env) (store_of [task_A; task_B])
                  = Return [task_A; task_B] (store_of [task_A; task_B]) [])
    by (vm_compute; reflexivity).
  assert (Hn : JSString.parseInt (js "1") = Some 1%Z) by (vm_compute; reflexivity).
  assert (Hrange : (1 <= 1 <= Z.of_nat (List.length [task_A; task_B]))%Z)
    by (simpl; lia).
  destruct (remove_deletes_only_that_task sample_env _ (js "1") [] _ _ 1 task_A
              Hload Hn Hrange eq_refl) as (tasks' & Hrun & _ & _ & Hafter).
  exists tasks'. split; [exact Hrun|].
  rewrite (Hafter 0%nat) by (simpl; lia). reflexivity.
Defined.

(** ** add on valid arguments *)

Lemma add_run (e : env) (w : world) (args : list jsstring)
    (tasks : list Task) (report : list line) (p : jsstring) :
  args <> [] ->
  flag_priority args = Some p ->
  JSString.includes [js "high"; js "medium"; js "low"] p = true ->
  run (loadTasks e) w = Return tasks w report ->
  let title := JSString.join (plain_args args) (js " ") in
  run (commands.add e args) w
  = Return tt (saved (tasks ++ [new_task e title p]) w)
      (report ++ save_report w ++ added_lines title p).
Proof.
  intros Hargs Hp Hvalid Hload title.
  unfold commands.add. run_monad.
  replace (List.length args =? 0)%nat with false
    by (symmetry; apply Nat.eqb_neq; destruct args; [congruence|discriminate]).
  unfold flag_priority in Hp. rewrite Hp. cbn. rewrite Hvalid. cbn.
  unfold run in Hload. rewrite Hload, saveTasks_run.
  unfold added_lines. rewrite <- !app_assoc. reflexivity.
Qed.

(** X4: a task that [add] has saved is the last one of the next listing.
    After an [add] whose write succeeded, [list] with no filter prints the
    tasks that were stored, under the numbers they had, and then the new
    task under the next number, pending, with the title and priority
    given. *)
Theorem add_then_list_shows_new_task_last
    (e e' : env) (w : world) (args : list jsstring)
    (tasks : list Task) (report : list line) (p : jsstring) :
  args <> [] ->
  flag_priority args = Some p ->
  JSString.includes [js "high"; js "medium"; js "low"] p = true ->
  run (loadTasks e) w = Return tasks w report ->
  write_error w = None ->
  let w1 := final_world (run (commands.add e args) w) in
  let new := new_task e (JSString.join (plain_args args) (js " ")) p in
  run (commands.list e' []) w1 = Return tt w1 (listing (js "all") (tasks ++ [new]))
  /\ (forall i, i < List.length tasks ->
        nth_error (numbered_from (tasks ++ [new]) 0) i
        = nth_error (numbered_from tasks 0) i)
  /\ nth_error (numbered_from (tasks ++ [new]) 0) (List.length tasks)
     = Some (Stdout (formatTask new (List.length tasks))).
Proof.
  intros Hargs Hp Hvalid Hload Hw w1 new.
  assert (Hw1 : w1 = saved (tasks ++ [new]) w).
  { subst w1. now rewrite (add_run e w args tasks report p Hargs Hp Hvalid Hload). }
  assert (Hload1 : run (loadTasks e') w1 = Return (tasks ++ [new]) w1 []).
  { apply loadTasks_saved. rewrite Hw1. unfold saved. cbn [tasks_file].
    now rewrite Hw. }
  split; [|split].
  - rewrite (list_run e' w1 [] _ [] Hload1) by (destruct tasks; discriminate).
    reflexivity.
  - intros i Hi. rewrite !numbered_from_nth.
    now rewrite nth_error_app1 by exact Hi.
  - rewrite numbered_from_nth, nth_error_app2 by lia.
    now rewrite Nat.sub_diag.
Qed.

Lemma add_then_list_shows_new_task_last_witness :
  let w1 := final_world (run (commands.add sample_env [js "C"; js "--priority=medium"])
                           (store_of [task_A; task_B])) in
  run (commands.list sample_env []) w1
  = Return tt w1
      [Stdout (js "📋 Tasks (all):"); Stdout [];
       Stdout (js "1. ✅ 🔴 A"); Stdout (js "2. 📋 🟢 B"); Stdout (js "3. 📋 🟡 C");
       Stdout []; Stdout (js "Total: 3 task(s)")].
Proof.
  assert (Hargs : [js "C"; js "--priority=medium"] <> []) by discriminate.
  assert (Hp : flag_priority [js "C"; js "--priority=medium"] = Some (js "medium"))
    by (vm_compute; reflexivity).
  assert (Hvalid : JSString.includes [js "high"; js "medium"; js "low"] (js "medium")
                   = true) by (vm_compute; reflexivity).
  assert (Hload : run (loadTasks sample_env) (store_of [task_A; task_B])
                  = Return [task_A; task_B] (store_of [task_A; task_B]) [])
    by (vm_compute; reflexivity).
  pose proof (proj1 (add_then_list_shows_new_task_last sample_env sample_env _ _ _ _ _
                       Hargs Hp Hvalid Hload eq_refl)) as W.
  vm_compute in W. vm_compute. exact W.
Defined.

(** X11: a failed write is reported and does not stop the command.  When
    [fs.writeFileSync] throws, [add], [complete] and [remove] print the
    error of [saveTasks] and then their confirmation, and return (exit
    status 0). *)
Theorem failed_save_still_confirms
    (e : env) (w : world) (message : jsstring)
    (tasks : list Task) (report : list line) :
  write_error w = Some message ->
  run (loadTasks e) w = Return tasks w report ->
  let failure := Stderr (js "❌ Error saving tasks: " ++ message) in
  (forall args p,
      args <> [] -> flag_priority args = Some p ->
      JSString.includes [js "high"; js "medium"; js "low"] p = true ->
      exists w',
        run (commands.add e args) w
        = Return tt w' (report ++ failure
                          :: added_lines (JSString.join (plain_args args) (js " ")) p))
  /\ (forall arg rest n task,
        JSString.parseInt arg = Some n ->
        (1 <= n <= Z.of_nat (List.length tasks))%Z ->
        nth_error tasks (Z.to_nat (n - 1)) = Some task ->
        (completed task = false ->
         exists w',
           run (commands.complete e (arg :: rest)) w
           = Return tt w' (report ++ failure :: completed_lines task))
        /\ exists w',
             run (commands.remove e (arg :: rest)) w
             = Return tt w' (report ++ failure :: removed_lines task)).
Proof.
  intros Hw Hload failure.
  assert (Hreport : save_report w = [failure])
    by (unfold save_report; now rewrite Hw).
  split.
  - intros args p Hargs Hp Hvalid. eexists.
    rewrite (add_run e w args tasks report p Hargs Hp Hvalid Hload), Hreport.
    reflexivity.
  - intros arg rest n task Hn Hrange Hnth. split.
    + intros Hpending. eexists.
      rewrite (complete_run e w arg rest tasks report n task Hload Hn Hrange Hnth),
        Hpending, Hreport. reflexivity.
    + eexists.
      rewrite (remove_run e w arg rest tasks report n task Hload Hn Hrange Hnth),
        Hreport. reflexivity.
Qed.

Lemma failed_save_still_confirms_witness :
  exists w',
    run (commands.remove sample_env [js "1"]) (locked_store_of [task_A; task_B])
    = Return tt w'
        (Stderr (js "❌ Error saving tasks: EACCES: permission denied")
           :: removed_lines task_A).
Proof.
  assert (Hload : run (loadTasks sample_env) (locked_store_of [task_A; task_B])
                  = Return [task_A; task_B] (locked_store_of [task_A; task_B]) [])
    by (vm_compute; reflexivity).
  assert (Hn : JSString.parseInt (js "1") = Some 1%Z) by (vm_compute; reflexivity).
  assert (Hrange : (1 <= 1 <= Z.of_nat (List.length [task_A; task_B]))%Z)
    by (simpl; lia).
  destruct (proj2 (failed_save_still_confirms sample_env
                     (locked_store_of [task_A; task_B])
                     (js "EACCES: permission denied") _ _ eq_refl Hload)
              (js "1") [] 1%Z task_A Hn Hrange eq_refl) as [_ (w' & Hrun)].
  exists w'. rewrite Hrun. vm_compute. reflexivity.
Defined.

(** ** list *)

(** X6: on an empty store [list] prints the hint to add a task and nothing
    else, whatever its arguments: the filter flags are not looked at, and
    after a failed load the hint follows the error report. *)
Theorem list_empty_store (e : env) (w : world) (args : list jsstring)
    (report : list line) :
  run (loadTasks e) w = Return [] w report ->
  run (commands.list e args) w
  = Return tt w
      (report ++ [Stdout (js "📋 No tasks found. Add some with " ++ JSString.dquote
                            ++ js "taskly add <task>" ++ JSString.dquote)]).
Proof.
  intros Hload. unfold commands.list, run, bind. unfold run in Hload.
  rewrite Hload. reflexivity.
Qed.

Lemma list_empty_store_witness :
  run (commands.list sample_env [js "--completed"]) (store_of [])
  = Return tt (store_of [])
      [Stdout (js "📋 No tasks found. Add some with " ++ JSString.dquote
                 ++ js "taskly add <task>" ++ JSString.dquote)].
Proof.
  assert (Hload : run (loadTasks sample_env) (store_of []) = Return [] (store_of []) [])
    by (vm_compute; reflexivity).
  exact (list_empty_store sample_env (store_of []) [js "--completed"] [] Hload).
Defined.

Lemma filter_none {A} (f : A -> bool) (l : list A) :
  (forall x, In x l -> f x = false) -> filter f l = [].
Proof.
  intros H. induction l as [|x l IH]; simpl; [reflexivity|].
  rewrite (H x) by now left. apply IH. intros y Hy. apply H. now right.
Qed.

Lemma list_filter_cases (args : list jsstring) :
  commands.list_filter args
  = if JSString.includes args (js "--completed") then js "completed"
    else if JSString.includes args (js "--pending") then js "pending"
    else js "all".
Proof. reflexivity. Qed.

(** X7: when the filter selects nothing from a non-empty store, [list]
    prints the heading and one line naming the filter, and no total: with
    [--completed] when no task is completed, and with [--pending] alone
    when every task is. *)
Theorem list_nothing_selected (e : env) (w : world) (args : list jsstring)
    (tasks : list Task) (report : list line) :
  run (loadTasks e) w = Return tasks w report ->
  tasks <> [] ->
  (In (js "--completed") args ->
   (forall t, In t tasks -> completed t = false) ->
   run (commands.list e args) w
   = Return tt w (report ++ [Stdout (js "📋 Tasks (completed):"); Stdout [];
                             Stdout (js "No completed tasks found.")]))
  /\ (~ In (js "--completed") args -> In (js "--pending") args ->
      (forall t, In t tasks -> completed t = true) ->
      run (commands.list e args) w
      = Return tt w (report ++ [Stdout (js "📋 Tasks (pending):"); Stdout [];
                                Stdout (js "No pending tasks found.")])).
Proof.
  intros Hload Hne. split.
  - intros Hc Hnone. rewrite (list_run e w args tasks report Hload Hne).
    rewrite list_filter_cases. apply includes_In in Hc. rewrite Hc.
    change (JSString.eqb (js "completed") (js "completed")) with true. cbv iota.
    rewrite (filter_none (fun t => completed t) tasks Hnone). reflexivity.
  - intros Hc Hp Hall. rewrite (list_run e w args tasks report Hload Hne).
    rewrite list_filter_cases.
    destruct (JSString.includes args (js "--completed")) eqn:E;
      [apply includes_In in E; contradiction|].
    apply includes_In in Hp. rewrite Hp.
    change (JSString.eqb (js "pending") (js "completed")) with false.
    change (JSString.eqb (js "pending") (js "pending")) with true. cbv iota.
    rewrite filter_none; [reflexivity|].
    intros t Ht. now rewrite (Hall t Ht).
Qed.

Lemma list_nothing_selected_witness :
  run (commands.list sample_env [js "--completed"]) (store_of [task_B])
  = Return tt (store_of [task_B])
      [Stdout (js "📋 Tasks (completed):"); Stdout [];
       Stdout (js "No completed tasks found.")].
Proof.
  assert (Hload : run (loadTasks sample_env) (store_of [task_B])
                  = Return [task_B] (store_of [task_B]) [])
    by (vm_compute; reflexivity).
  assert (Hne : [task_B] <> []) by discriminate.
  assert (Hc : In (js "--completed") [js "--completed"]) by (left; reflexivity).
  assert (Hnone : forall t, In t [task_B] -> completed t = false)
    by (intros t [<-|[]]; reflexivity).
  exact (proj1 (list_nothing_selected sample_env _ _ _ _ Hload Hne) Hc Hnone).
Defined.

(** X8: [list] looks at its arguments only to see whether [--completed] and
    [--pending] are among them: two argument lists that agree on that give
    the same run, in every world. *)
Theorem list_depends_on_two_flags (e : env) (w : world) (args args' : list jsstring) :
  (In (js "--completed") args <-> In (js "--completed") args') ->
  (In (js "--pending") args <-> In (js "--pending") args') ->
  run (commands.list e args) w = run (commands.list e args') w.
Proof.
  intros Hc Hp.
  assert (Hsame : forall flag, (In flag args <-> In flag args') ->
                    JSString.includes args flag = JSString.includes args' flag).
  { intros flag H. destruct (JSString.includes args flag) eqn:E1,
      (JSString.includes args' flag) eqn:E2; try reflexivity.
    - apply includes_In, H, includes_In in E1. congruence.
    - apply includes_In, H, includes_In in E2. congruence. }
  assert (Hfilter : commands.list_filter args = commands.list_filter args').
  { rewrite !list_filter_cases. now rewrite (Hsame _ Hc), (Hsame _ Hp). }
  unfold commands.list. pattern (commands.list_filter args).
  rewrite Hfilter. reflexivity.
Qed.

Lemma list_depends_on_two_flags_witness :
  run (commands.list sample_env [js "--all"; js "--pending"; js "x"])
      (store_of [task_A; task_B])
  = run (commands.list sample_env [js "--pending"]) (store_of [task_A; task_B]).
Proof.
  apply list_depends_on_two_flags.
  - split; intros [H|[H|[H|[]]]] || intros [H|[]]; vm_compute in H; discriminate.
  - split; intros _; [left|right; left]; reflexivity.
Defined.

Lemma filter_split_length {A} (f : A -> bool) (l : list A) :
  List.length (filter f l) + List.length (filter (fun x => negb (f x)) l)
  = List.length l.
Proof.
  induction l as [|x l IH]; simpl; [reflexivity|].
  destruct (f x); simpl; lia.
Qed.

(** X9: the two filters split the store.  On a non-empty store the
    selections of [list --completed] and of [list --pending] together have
    as many tasks as are stored, every stored task is in one of them, and
    none is in both. *)
Theorem list_filters_split_store (e : env) (w : world)
    (tasks : list Task) (report : list line) :
  run (loadTasks e) w = Return tasks w report ->
  tasks <> [] ->
  exists done pending,
    run (commands.list e [js "--completed"]) w
    = Return tt w (report ++ listing (js "completed") done)
    /\ run (commands.list e [js "--pending"]) w
       = Return tt w (report ++ listing (js "pending") pending)
    /\ List.length done + List.length pending = List.length tasks
    /\ (forall t, In t tasks <-> In t done \/ In t pending)
    /\ (forall t, In t done -> In t pending -> False).
Proof.
  intros Hload Hne.
  exists (filter (fun t => completed t) tasks),
         (filter (fun t => negb (completed t)) tasks).
  split; [|split; [|split; [|split]]].
  - now rewrite (list_run e w _ tasks report Hload Hne).
  - now rewrite (list_run e w _ tasks report Hload Hne).
  - apply filter_split_length.
  - intros t. rewrite !filter_In. destruct (completed t); simpl; tauto.
  - intros t. rewrite !filter_In. intros [_ H1] [_ H2]. rewrite H1 in H2.
    discriminate.
Qed.

Lemma list_filters_split_store_witness :
  exists done pending,
    run (commands.list sample_env [js "--completed"]) (store_of [task_A; task_B])
    = Return tt (store_of [task_A; task_B]) (listing (js "completed") done)
    /\ run (commands.list sample_env [js "--pending"]) (store_of [task_A; task_B])
       = Return tt (store_of [task_A; task_B]) (listing (js "pending") pending)
    /\ List.length done + List.length pending = 2.
Proof.
  assert (Hload : run (loadTasks sample_env) (store_of [task_A; task_B])
                  = Return [task_A; task_B] (store_of [task_A; task_B]) [])
    by (vm_compute; reflexivity).
  assert (Hne : [task_A; task_B] <> []) by discriminate.
  destruct (list_filters_split_store sample_env _ _ _ Hload Hne)
    as (done & pending & H1 & H2 & H3 & _).
  exists done, pending. split; [exact H1|]. split; [exact H2|exact H3].
Defined.

(** ** The number printed is the number read *)

Section PrintedNumbers.
Local Open Scope N_scope.

Lemma digit_value_decimal (c : N) :
  48 <= c <= 57 -> JSString.digit_value 10 c = Some (c - 48).
Proof.
  intros H. unfold JSString.digit_value.
  replace ((48 <=? c) && (c <=? 57)) with true
    by (symmetry; apply andb_true_iff; split; apply N.leb_le; lia).
  replace (c - 48 <? 10) with true by (symmetry; apply N.ltb_lt; lia).
  reflexivity.
Qed.

(** Reading decimal digits continues the number read so far. *)
Lemma digits_value_uint (d : Decimal.uint) (acc : N) :
  JSString.digits_value 10 (JSString.uint_units d) (Some acc)
  = Some (N.of_nat (Nat.of_uint_acc d (N.to_nat acc))).
Proof.
  revert acc. induction d; intros acc; cbn [JSString.uint_units JSString.digits_value];
    try (rewrite digit_value_decimal by lia; rewrite IHd; cbn [Nat.of_uint_acc];
         rewrite Nat.tail_mul_spec; do 3 f_equal; lia).
  cbn [Nat.of_uint_acc]. now rewrite N2Nat.id.
Qed.

Lemma digits_value_uint_start (d : Decimal.uint) :
  d <> Decimal.Nil ->
  JSString.digits_value 10 (JSString.uint_units d) None
  = Some (N.of_nat (Nat.of_uint d)).
Proof.
  destruct d; intros H; [congruence| ..];
    cbn [JSString.uint_units JSString.digits_value];
    rewrite digit_value_decimal by lia; rewrite digits_value_uint;
    unfold Nat.of_uint; cbn [Nat.of_uint_acc]; rewrite Nat.tail_mul_spec;
    reflexivity.
Qed.

Lemma uint_units_head (d : Decimal.uint) :
  d <> Decimal.Nil ->
  exists c r, JSString.uint_units d = c :: r /\ 48 <= c <= 57.
Proof.
  destruct d; intros H; [congruence| ..]; cbn [JSString.uint_units];
    eexists; eexists; (split; [reflexivity|lia]).
Qed.

Lemma uint_units_second (d : Decimal.uint) (c x : N) (r : jsstring) :
  JSString.uint_units d = c :: x :: r -> 48 <= x <= 57.
Proof.
  destruct d as [|d|d|d|d|d|d|d|d|d|d]; cbn [JSString.uint_units];
    try discriminate; intros [= _ H];
    destruct d; cbn [JSString.uint_units] in H; try discriminate;
    injection H as <- _; lia.
Qed.

Lemma to_uint_not_nil (n : nat) : Nat.to_uint n <> Decimal.Nil.
Proof.
  intros H. pose proof (DecimalNat.Unsigned.of_to n) as E. rewrite H in E. cbn in E. subst n.
  discriminate H.
Qed.

Lemma parseInt_toString (n : nat) :
  JSString.parseInt (JSString.toString n) = Some (Z.of_nat n).
Proof.
  unfold JSString.toString.
  destruct (uint_units_head (Nat.to_uint n) (to_uint_not_nil n)) as (c & r & Hd & Hc).
  unfold JSString.parseInt. rewrite Hd.
  assert (Hws : JSString.is_whitespace c = false).
  { unfold JSString.is_whitespace.
    repeat match goal with
           | |- context [(?a =? ?b)] =>
               replace (a =? b) with false by (symmetry; apply N.eqb_neq; lia)
           | |- context [(?a <=? ?b)] =>
               first [ replace (a <=? b) with false by (symmetry; apply N.leb_gt; lia)
                     | replace (a <=? b) with true by (symmetry; apply N.leb_le; lia) ]
           end.
    reflexivity. }
  cbn [JSString.trimStart]. rewrite Hws.
  unfold JSString.strip_sign.
  replace (c =? 45) with false by (symmetry; apply N.eqb_neq; lia).
  replace (c =? 43) with false by (symmetry; apply N.eqb_neq; lia).
  assert (Hprefix : JSString.strip_hex_prefix (c :: r) = (10, c :: r)).
  { unfold JSString.strip_hex_prefix. destruct r as [|x r']; [reflexivity|].
    pose proof (uint_units_second _ _ _ _ Hd) as Hx.
    replace (x =? 120) with false by (symmetry; apply N.eqb_neq; lia).
    replace (x =? 88) with false by (symmetry; apply N.eqb_neq; lia).
    now rewrite andb_false_r. }
  rewrite Hprefix.
  assert (Hvalue : JSString.digits_value 10 (c :: r) None = Some (N.of_nat n)).
  { rewrite <- Hd, digits_value_uint_start by apply to_uint_not_nil.
    now rewrite DecimalNat.Unsigned.of_to. }
  rewrite Hvalue. f_equal. rewrite Z.mul_1_l. apply nat_N_Z.
Qed.

End PrintedNumbers.

(** The lines of the tasks follow the heading and the blank line. *)
Lemma listing_line (selection : jsstring) (selected : list Task) (i : nat) (l : line) :
  nth_error (numbered_from selected 0) i = Some l ->
  nth_error (listing selection selected) (2 + i) = Some l.
Proof.
  intros Hl. unfold listing.
  rewrite nth_error_app2 by (cbn [List.length]; lia).
  replace (2 + i - List.length [Stdout (js "📋 Tasks (" ++ selection ++ js "):");
                                Stdout []]) with i by (cbn [List.length]; lia).
  destruct selected as [|t0 selected0]; [destruct i; discriminate Hl|].
  rewrite nth_error_app1; [exact Hl|].
  apply nth_error_Some. rewrite Hl. discriminate.
Qed.

(** X10: the number [list] prints for a task, given back to [remove] or
    [complete], addresses that task.  Without a filter flag [list] prints,
    after the report of the load, the heading and a blank line, one line for
    each stored task: the line for the task at index [i] starts with the
    decimal digits of [i + 1].  [parseInt] reads them as [i + 1], so
    [remove] deletes the task at index [i] and [complete] marks it. *)
Theorem listed_number_addresses_task
    (e : env) (w : world) (args rest : list jsstring)
    (tasks : list Task) (report : list line) (i : nat) (task : Task) :
  run (loadTasks e) w = Return tasks w report ->
  ~ In (js "--completed") args ->
  ~ In (js "--pending") args ->
  nth_error tasks i = Some task ->
  let number := JSString.toString (i + 1) in
  run (commands.list e args) w = Return tt w (report ++ listing (js "all") tasks)
  /\ nth_error (output (run (commands.list e args) w)) (List.length report + 2 + i)
     = Some (Stdout (formatTask task i))
  /\ nth_error (numbered_from tasks 0) i = Some (Stdout (formatTask task i))
  /\ JSString.startsWith (formatTask task i) (number ++ js ". ") = true
  /\ JSString.parseInt number = Some (Z.of_nat (i + 1))
  /\ run (commands.remove e (number :: rest)) w
     = Return tt (saved (splice1 tasks i) w)
         (report ++ save_report w ++ removed_lines task)
  /\ run (commands.complete e (number :: rest)) w
     = if completed task
       then Return tt w (report ++ [Stdout (js "ℹ️  Task is already completed!")])
       else Return tt (saved (assign tasks i (completed_now e task)) w)
              (report ++ save_report w ++ completed_lines task).
Proof.
  intros Hload Hc Hp Hnth number.
  assert (Hi : i < List.length tasks) by (apply nth_error_Some; congruence).
  assert (Hne : tasks <> []) by (intros ->; destruct i; discriminate Hnth).
  assert (Hn : JSString.parseInt number = Some (Z.of_nat (i + 1)))
    by apply parseInt_toString.
  assert (Hrange : (1 <= Z.of_nat (i + 1) <= Z.of_nat (List.length tasks))%Z) by lia.
  assert (Hindex : Z.to_nat (Z.of_nat (i + 1) - 1) = i) by lia.
  assert (Hline : nth_error (numbered_from tasks 0) i
                  = Some (Stdout (formatTask task i)))
    by now rewrite numbered_from_nth, Hnth.
  assert (Hfilter : commands.list_filter args = js "all").
  { unfold commands.list_filter.
    destruct (JSString.includes args (js "--completed")) eqn:E1;
      [apply includes_In in E1; contradiction|].
    destruct (JSString.includes args (js "--pending")) eqn:E2;
      [apply includes_In in E2; contradiction|].
    reflexivity. }
  assert (Hlist : run (commands.list e args) w
                  = Return tt w (report ++ listing (js "all") tasks)).
  { rewrite (list_run e w args tasks report Hload Hne), Hfilter. reflexivity. }
  split; [exact Hlist|]. split; [|split; [exact Hline|split; [|split; [exact Hn|split]]]].
  - rewrite Hlist. cbn [output].
    rewrite <- Nat.add_assoc, nth_error_app2 by lia.
    replace (List.length report + (2 + i) - List.length report) with (2 + i) by lia.
    now apply listing_line.
  - unfold formatTask. fold number. rewrite (app_assoc number). apply startsWith_app.
  - rewrite (remove_run e w number rest tasks report _ task Hload Hn Hrange)
      by now rewrite Hindex.
    now rewrite Hindex.
  - rewrite (complete_run e w number rest tasks report _ task Hload Hn Hrange)
      by now rewrite Hindex.
    now rewrite Hindex.
Qed.

Lemma listed_number_addresses_task_witness :
  nth_error (output (run (commands.list sample_env [js "--all"])
                         (store_of [task_A; task_B]))) 3
  = Some (Stdout (formatTask task_B 1))
  /\ run (commands.remove sample_env [JSString.toString 2]) (store_of [task_A; task_B])
     = Return tt (saved [task_A] (store_of [task_A; task_B])) (removed_lines task_B).
Proof.
  assert (Hload : run (loadTasks sample_env) (store_of [task_A; task_B])
                  = Return [task_A; task_B] (store_of [task_A; task_B]) [])
    by (vm_compute; reflexivity).
  assert (Hnth : nth_error [task_A; task_B] 1 = Some task_B) by reflexivity.
  assert (Hc : ~ In (js "--completed") [js "--all"])
    by (intros [H|[]]; vm_compute in H; discriminate H).
  assert (Hp : ~ In (js "--pending") [js "--all"])
    by (intros [H|[]]; vm_compute in H; discriminate H).
  pose proof (listed_number_addresses_task sample_env _ [js "--all"] [] _ _ 1 task_B
                Hload Hc Hp Hnth) as W.
  split; [exact (proj1 (proj2 W))|].
  exact (proj1 (proj2 (proj2 (proj2 (proj2 (proj2 W)))))).
Defined.

(** ** generateId *)

Section GenerateId.
Local Open Scope N_scope.

Lemma digit_unit_value (d : N) :
  d < 36 -> JSString.digit_value 36 (JSString.digit_unit d) = Some d.
Proof.
  intros H. unfold JSString.digit_unit, JSString.digit_value.
  destruct (N.ltb_spec d 10) as [Hd|Hd].
  - replace ((48 <=? 48 + d) && (48 + d <=? 57)) with true
      by (symmetry; apply andb_true_iff; split; apply N.leb_le; lia).
    replace (48 + d - 48) with d by lia.
    now replace (d <? 36) with true by (symmetry; apply N.ltb_lt; lia).
  - replace ((48 <=? 87 + d) && (87 + d <=? 57)) with false
      by (symmetry; apply andb_false_iff; right; apply N.leb_gt; lia).
    replace ((97 <=? 87 + d) && (87 + d <=? 122)) with true
      by (symmetry; apply andb_true_iff; split; apply N.leb_le; lia).
    replace (87 + d - 87) with d by lia.
    now replace (d <? 36) with true by (symmetry; apply N.ltb_lt; lia).
Qed.

Lemma radix36_step (f : nat) (n : N) (acc : jsstring) :
  JSString.radix36 (S f) n acc
  = if n <? 36 then JSString.digit_unit n :: acc
    else JSString.radix36 f (n / 36) (JSString.digit_unit (n mod 36) :: acc).
Proof. reflexivity. Qed.

(** Reading the digits written in front of [acc] gives [n], ready to be
    continued by [acc]. *)
Lemma radix36_value (f : nat) (n : N) (acc : jsstring) :
  n < 2 ^ N.of_nat (S f) ->
  JSString.digits_value 36 (JSString.radix36 (S f) n acc) None
  = JSString.digits_value 36 acc (Some n).
Proof.
  revert n acc. induction f as [|f IH]; intros n acc Hn;
    rewrite radix36_step.
  - replace (n <? 36) with true by (symmetry; apply N.ltb_lt; cbn in Hn; lia).
    cbn [JSString.digits_value]. rewrite digit_unit_value by (cbn in Hn; lia).
    reflexivity.
  - destruct (N.ltb_spec n 36) as [Hlt|Hge].
    + cbn [JSString.digits_value]. now rewrite digit_unit_value.
    + rewrite IH.
      * cbn [JSString.digits_value].
        rewrite digit_unit_value by (apply N.mod_lt; discriminate).
        do 2 f_equal. pose proof (N.Div0.div_mod n 36). lia.
      * apply N.Div0.div_lt_upper_bound.
        rewrite Nat2N.inj_succ, N.pow_succ_r' in Hn. lia.
Qed.

Lemma toString36_value (n : N) :
  JSString.digits_value 36 (JSString.toString36 n) None = Some n.
Proof.
  unfold JSString.toString36. rewrite radix36_value; [reflexivity|].
  rewrite Nat2N.inj_succ, N2Nat.id.
  destruct n as [|p]; [reflexivity|]. apply N.log2_spec. reflexivity.
Qed.

Lemma app_same_length_tail {A} (a1 a2 b1 b2 : list A) :
  a1 ++ b1 = a2 ++ b2 -> List.length b1 = List.length b2 -> a1 = a2 /\ b1 = b2.
Proof.
  revert a2. induction a1 as [|x a1 IH]; intros [|y a2] H Hlen; simpl in H.
  - now split.
  - exfalso. subst b1. simpl in Hlen. rewrite length_app in Hlen. lia.
  - exfalso. subst b2. simpl in Hlen. rewrite length_app in Hlen. lia.
  - injection H as -> H. destruct (IH a2 H Hlen) as [-> ->]. now split.
Qed.

End GenerateId.

(** X12: two generated ids whose random parts have the same length are
    equal only when they were made at the same millisecond with the same
    random part: the base-36 text of [Date.now()] determines the time. *)
Theorem generateId_collision (e1 e2 : env) :
  List.length (JSString.substr (Math_random_36 e1) 2)
  = List.length (JSString.substr (Math_random_36 e2) 2) ->
  generateId e1 = generateId e2 ->
  Date_now e1 = Date_now e2
  /\ JSString.substr (Math_random_36 e1) 2 = JSString.substr (Math_random_36 e2) 2.
Proof.
  intros Hlen Heq. unfold generateId in Heq.
  destruct (app_same_length_tail _ _ _ _ Heq Hlen) as [Htime Hrandom].
  split; [|exact Hrandom].
  pose proof (toString36_value (Date_now e1)) as H1.
  rewrite Htime, toString36_value in H1. congruence.
Qed.

Lemma generateId_collision_witness :
  Date_now sample_env = Date_now later_env
  /\ JSString.substr (Math_random_36 sample_env) 2
     = JSString.substr (Math_random_36 later_env) 2.
Proof.
  apply generateId_collision; vm_compute; reflexivity.
Defined.

(** ** main *)

Lemma eqb_neq (a b : jsstring) : a <> b -> JSString.eqb a b = false.
Proof.
  intros H. destruct (JSString.eqb a b) eqn:E; [|reflexivity].
  apply eqb_eq in E. contradiction.
Qed.

Lemma includes_absent (arr : list jsstring) (s : jsstring) :
  ~ In s arr -> JSString.includes arr s = false.
Proof.
  intros H. destruct (JSString.includes arr s) eqn:E; [|reflexivity].
  apply includes_In in E. contradiction.
Qed.

(** X13: with no argument, with an empty first argument, or with [help],
    [--help] or [-h] as the first argument, the program does exactly what
    [help] does: it prints the help text and returns, whatever follows on
    the command line and whatever the state of the tasks file.  This is for
    a [package.json] with which Node starts the script as CommonJS. *)
Theorem main_help_spellings
    (e : env) (package_json : file_state) (w : world)
    (node script : jsstring) (args : list jsstring) :
  commonjs_package package_json = true ->
  args = []
  \/ (exists command rest,
        args = command :: rest /\ (command = [] \/ In command help_spellings)) ->
  run (taskly e package_json (node :: script :: args)) w = run commands.help w.
Proof.
  intros _ [->|(command & rest & -> & Hc)].
  - reflexivity.
  - unfold taskly, main, run. cbn [skipn nth_error].
    assert (Hhelp : (List.length command =? 0)%nat
                    || JSString.includes [js "help"; js "--help"; js "-h"] command
                    = true).
    { destruct Hc as [->|Hc]; [reflexivity|].
      apply orb_true_iff. right. now apply includes_In. }
    unfold bind at 1. change (nth_error (command :: rest) 0) with (Some command).
    cbv iota. rewrite Hhelp. reflexivity.
Qed.

Lemma main_help_spellings_witness :
  run (taskly sample_env sample_package (argv [js "--help"; js "add"; js "x"]))
      corrupt_world
  = run commands.help corrupt_world.
Proof.
  assert (Hpackage : commonjs_package sample_package = true)
    by (vm_compute; reflexivity).
  apply (main_help_spellings _ _ _ _ _ _ Hpackage).
  right. exists (js "--help"), [js "add"; js "x"].
  split; [reflexivity|]. right. right. left. reflexivity.
Defined.

Lemma not_help_or_version (command : jsstring) :
  command <> [] ->
  ~ In command help_spellings ->
  ~ In command version_spellings ->
  (List.length command =? 0)%nat
  || JSString.includes [js "help"; js "--help"; js "-h"] command = false
  /\ JSString.includes [js "--version"; js "-v"] command = false.
Proof.
  intros Hne Hh Hv. split.
  - apply orb_false_iff. split.
    + destruct command; [congruence|reflexivity].
    + now apply includes_absent.
  - now apply includes_absent.
Qed.

Ltac known name :=
  match goal with
  | Hnot : ~ In ?c known_names |- _ =>
      replace (JSString.eqb c name) with false
        by (symmetry; apply eqb_neq; intros ->; apply Hnot;
            unfold known_names, help_spellings, version_spellings, own_commands,
              inherited_quiet, inherited_throwing;
            cbn [app In]; repeat first [left; reflexivity | right])
  end.

(** X14: a first argument that is neither a command, nor a spelling of help
    or version, nor a name every object inherits, is reported as unknown:
    one line on the error channel naming it, the hint on standard output,
    exit status 1, and the world left as it was. *)
Theorem main_unknown_command
    (e : env) (package_json : file_state) (w : world)
    (node script command : jsstring) (rest : list jsstring) :
  command <> [] ->
  ~ In command known_names ->
  run (taskly e package_json (node :: script :: command :: rest)) w
  = Exit 1 w
      [Stderr (js "❌ Unknown command: " ++ command);
       Stdout (js "Run " ++ JSString.dquote ++ js "taskly help" ++ JSString.dquote
                 ++ js " for available commands.")].
Proof.
  intros Hne Hnot.
  assert (Hh : ~ In command help_spellings)
    by (intros H; apply Hnot; unfold known_names; apply in_or_app; now left).
  assert (Hv : ~ In command version_spellings)
    by (intros H; apply Hnot; unfold known_names; apply in_or_app; right;
        apply in_or_app; now left).
  assert (Hq : ~ In command inherited_quiet)
    by (intros H; apply Hnot; unfold known_names; rewrite !in_app_iff; tauto).
  assert (Ht : ~ In command [js "__defineGetter__"; js "__defineSetter__"])
    by (intros H; apply Hnot; unfold known_names, inherited_throwing;
        rewrite !in_app_iff; right; right; right; right; now right).
  destruct (not_help_or_version command Hne Hh Hv) as [H1 H2].
  assert (Hlookup : lookup e command rest = None).
  { unfold lookup, inherited.
    known (js "add"). known (js "list"). known (js "complete"). known (js "remove").
    known (js "init"). known (js "help"). known (js "__proto__").
    rewrite (includes_absent _ _ Ht).
    change (JSString.includes _ command) with (JSString.includes inherited_quiet command).
    rewrite (includes_absent _ _ Hq). reflexivity. }
  unfold taskly, main, run. cbn [skipn].
  change (nth_error (command :: rest) 0) with (Some command). cbv iota.
  unfold bind at 1. rewrite H1, H2, Hlookup. reflexivity.
Qed.

Lemma main_unknown_command_witness :
  run (taskly sample_env sample_package (argv [js "delete"; js "1"]))
      (store_of [task_A])
  = Exit 1 (store_of [task_A])
      [Stderr (js "❌ Unknown command: delete");
       Stdout (js "Run " ++ JSString.dquote ++ js "taskly help" ++ JSString.dquote
                 ++ js " for available commands.")].
Proof.
  assert (Hne : js "delete" <> []) by (vm_compute; discriminate).
  assert (Hnot : ~ In (js "delete") known_names).
  { vm_compute. intros H.
    repeat (destruct H as [H|H]; [discriminate H|]). exact H. }
  pose proof (main_unknown_command sample_env sample_package (store_of [task_A])
                (js "/usr/bin/node") (js "/usr/local/bin/taskly") (js "delete")
                [js "1"] Hne Hnot) as W.
  vm_compute in W. vm_compute. exact W.
Defined.

(** X15: a first argument naming a method every object inherits is not
    reported as unknown.  For [toString], [constructor], [hasOwnProperty]
    and the like the inherited method is called and the program ends with
    status 0 having printed nothing; for [__proto__], [__defineGetter__]
    and [__defineSetter__] the call throws and nothing is printed by the
    program.  The world is left as it was. *)
Theorem main_inherited_names
    (e : env) (package_json : file_state) (w : world)
    (node script command : jsstring) (rest : list jsstring) :
  (In command inherited_quiet ->
   run (taskly e package_json (node :: script :: command :: rest)) w = Return tt w [])
  /\ (In command inherited_throwing ->
      exists message,
        run (taskly e package_json (node :: script :: command :: rest)) w
        = Throw message w []).
Proof.
  split.
  - intros H. unfold inherited_quiet in H. cbn [In] in H.
    repeat (destruct H as [<-|H]; [vm_compute; reflexivity|]). contradiction.
  - intros H. unfold inherited_throwing in H. cbn [In] in H.
    repeat (destruct H as [<-|H]; [eexists; vm_compute; reflexivity|]).
    contradiction.
Qed.

Lemma main_inherited_names_witness :
  run (taskly sample_env sample_package (argv [js "toString"])) (store_of [task_A])
  = Return tt (store_of [task_A]) [].
Proof.
  apply main_inherited_names. vm_compute. tauto.
Defined.

(** X5: [add], [complete] and [remove] without an argument end with their
    usage line on the error channel and exit status 1 before the store is
    read: the world is left as it was and nothing is reported about the
    file, even one that cannot be loaded. *)
Theorem missing_argument_usage
    (e : env) (package_json : file_state) (w : world) (node script : jsstring) :
  run (taskly e package_json [node; script; js "add"]) w
  = Exit 1 w
      [Stderr (js "❌ Usage: taskly add <task-title> [--priority=high|medium|low]")]
  /\ run (taskly e package_json [node; script; js "complete"]) w
     = Exit 1 w [Stderr (js "❌ Usage: taskly complete <task-number>")]
  /\ run (taskly e package_json [node; script; js "remove"]) w
     = Exit 1 w [Stderr (js "❌ Usage: taskly remove <task-number>")].
Proof. repeat split; vm_compute; reflexivity. Qed.

(** ** What only three commands do *)

Lemma read_only_throw {A} (message : jsstring) : read_only (@throw A message).
Proof. now intros w out. Qed.

Lemma read_only_process_exit (code : nat) : read_only (process_exit code).
Proof. now intros w out. Qed.

Lemma read_only_help : read_only commands.help.
Proof.
  unfold commands.help. repeat (apply read_only_bind; [auto with read_only|intros _]).
  auto with read_only.
Qed.

Lemma read_only_init_callback : read_only commands.init_callback.
Proof.
  unfold commands.init_callback.
  repeat (apply read_only_bind; [auto with read_only|intros _]).
  auto with read_only.
Qed.

Lemma read_only_listing (e : env) (args : list jsstring) :
  read_only (commands.list e args).
Proof.
  unfold commands.list. apply read_only_bind; auto with read_only.
  intros tasks. destruct (List.length tasks =? 0)%nat; auto with read_only.
  repeat (apply read_only_bind; auto with read_only; intros _).
  match goal with |- read_only (if ?b then _ else _) => destruct b end;
    auto with read_only.
  apply read_only_bind.
  - apply read_only_forEach. auto with read_only.
  - intros _. apply read_only_bind; auto with read_only.
Qed.

Lemma harmless_no_timer (m : M unit) : read_only m -> harmless (m ;; ret []).
Proof.
  intros Hm w out. unfold bind, ret. specialize (Hm w out).
  destruct (m w out); simpl in *; auto.
Qed.

Lemma harmless_version (e : env) (package_json : file_state) :
  harmless (text <- read_package_json package_json ;;
            pkg <- JSON_parse e text ;;
            version <- version_text pkg ;;
            console_log (js "taskly v" ++ version) ;;
            ret []).
Proof.
  intros w out. unfold bind, read_package_json, JSON_parse, version_text, throw, ret,
    unmodelled, console_log.
  destruct package_json as [|message|text]; try reflexivity.
  destruct (JSON.parse text) as [pkg rest| |]; try reflexivity.
  destruct pkg as [ |b|lexeme|s|items|members]; try (split; [reflexivity|constructor]);
    try reflexivity.
  destruct (last_member members (js "version")) as [[ |[|]|lexeme|s|items|ms]|];
    try (split; [reflexivity|constructor]); reflexivity.
Qed.

Lemma harmless_init (args : list jsstring) : harmless (commands.init args).
Proof.
  intros w out. unfold commands.init, bind, console_log, ret.
  split; [reflexivity|]. constructor; [apply read_only_init_callback|constructor].
Qed.

Lemma harmless_inherited (command : jsstring) (m : M unit) :
  inherited command = Some m -> read_only m.
Proof.
  unfold inherited.
  repeat match goal with |- context [if ?b then _ else _] => destruct b end;
    intros [= <-]; auto using read_only_throw with read_only.
Qed.

Lemma harmless_main (e : env) (package_json : file_state) (process_argv : list jsstring) :
  match nth_error (skipn 2 process_argv) 0 with
  | Some command => ~ In command writing_commands
  | None => True
  end ->
  harmless (main e package_json process_argv).
Proof.
  unfold main. destruct (nth_error (skipn 2 process_argv) 0) as [command|];
    [|intros _; apply harmless_no_timer, read_only_help].
  intros Hnot.
  destruct ((List.length command =? 0)%nat
            || JSString.includes [js "help"; js "--help"; js "-h"] command);
    [apply harmless_no_timer, read_only_help|].
  destruct (JSString.includes [js "--version"; js "-v"] command);
    [apply harmless_version|].
  assert (Hw : forall name, In name writing_commands -> JSString.eqb command name = false).
  { intros name Hin. apply eqb_neq. intros ->. contradiction. }
  unfold lookup.
  rewrite (Hw (js "add")) by (left; reflexivity).
  destruct (JSString.eqb command (js "list"));
    [apply harmless_no_timer, read_only_listing|].
  rewrite (Hw (js "complete")) by (right; left; reflexivity).
  rewrite (Hw (js "remove")) by (right; right; left; reflexivity).
  destruct (JSString.eqb command (js "init")); [apply harmless_init|].
  destruct (JSString.eqb command (js "help"));
    [apply harmless_no_timer, read_only_help|].
  destruct (inherited command) as [m|] eqn:E; cbn [option_map].
  - apply harmless_no_timer. now apply (harmless_inherited command).
  - intros w out. reflexivity.
Qed.

Lemma read_only_run_timers (timers : list timer) :
  Forall (fun t => read_only (snd t)) timers -> read_only (run_timers timers).
Proof.
  induction 1 as [|[delay callback] timers Hcb _ IH]; cbn [run_timers].
  - apply read_only_ret.
  - apply read_only_bind; [exact Hcb|intros _; exact IH].
Qed.

(** X16: only [add], [complete] and [remove] can change the store.  When
    the first argument is none of them, whatever it is and whatever
    follows, the program ends with the file as it was and without having
    called [fs.writeFileSync], in every world. *)
Theorem only_three_commands_write
    (e : env) (package_json : file_state) (process_argv : list jsstring) (w : world) :
  match nth_error (skipn 2 process_argv) 0 with
  | Some command => ~ In command writing_commands
  | None => True
  end ->
  final_world (run (taskly e package_json process_argv) w) = w.
Proof.
  intros Hnot. unfold taskly, run, bind.
  pose proof (harmless_main e package_json process_argv Hnot w []) as Hmain.
  destruct (main e package_json process_argv w []) as [timers w' out'| | |];
    try exact Hmain.
  destruct Hmain as [-> Htimers]. now apply read_only_run_timers.
Qed.

Lemma only_three_commands_write_witness :
  final_world (run (taskly sample_env sample_package
                      (argv [js "init"; js "demo"; js "--completed"]))
                 (locked_store_of [task_A; task_B]))
  = locked_store_of [task_A; task_B].
Proof.
  apply only_three_commands_write. vm_compute.
  intros H. repeat (destruct H as [H|H]; [discriminate H|]). exact H.
Defined.

(** ** --version and init *)

(** X17: unlike a failure of the store, a failure of [package.json] is not
    absorbed.  With [--version] or [-v], when the file is missing, cannot
    be read or does not parse, [main] throws: nothing is printed by the
    program, the exit status is 1 and the world is as it was. *)
Theorem version_failure_is_fatal
    (e : env) (package_json : file_state) (w : world)
    (node script command : jsstring) (rest : list jsstring) :
  In command version_spellings ->
  package_failure package_json ->
  exists message,
    run (taskly e package_json (node :: script :: command :: rest)) w
    = Throw message w []
    /\ exit_code (run (taskly e package_json (node :: script :: command :: rest)) w)
       = Some 1.
Proof.
  intros Hc Hfail.
  assert (Hmain : exists message,
             main e package_json (node :: script :: command :: rest) w []
             = Throw message w []).
  { unfold main. cbn [skipn].
    change (nth_error (command :: rest) 0) with (Some command). cbv iota.
    assert (H1 : (List.length command =? 0)%nat
                 || JSString.includes [js "help"; js "--help"; js "-h"] command = false).
    { unfold version_spellings in Hc. cbn [In] in Hc.
      destruct Hc as [<-|[<-|[]]]; vm_compute; reflexivity. }
    rewrite H1. apply includes_In in Hc. unfold version_spellings in Hc. rewrite Hc.
    unfold bind, read_package_json, JSON_parse, throw, ret.
    destruct package_json as [|message|text]; cbn in Hfail.
    - eexists. reflexivity.
    - eexists. reflexivity.
    - rewrite Hfail. eexists. reflexivity. }
  destruct Hmain as [message Hmain]. exists message.
  unfold taskly, run, bind. rewrite Hmain. split; reflexivity.
Qed.

Lemma version_failure_is_fatal_witness :
  exists message,
    run (taskly sample_env (Content (js "{ version: 1 }")) (argv [js "-v"])) empty_world
    = Throw message empty_world []
    /\ exit_code (run (taskly sample_env (Content (js "{ version: 1 }"))
                        (argv [js "-v"])) empty_world)
       = Some 1.
Proof.
  apply version_failure_is_fatal.
  - right. left. reflexivity.
  - vm_compute. reflexivity.
Defined.

(** X18: [--version] and [-v] print the version of [package.json].  When
    the file is one with which Node starts the script as CommonJS and the
    last member named [version] of the JSON object it holds is a string,
    the program prints [taskly v] followed by that string and returns,
    whatever follows on the command line, leaving the world as it was. *)
Theorem version_prints_package_version
    (e : env) (text : jsstring) (w : world)
    (node script command : jsstring) (rest : list jsstring)
    (members : list (jsstring * JSON.json)) (remainder version : jsstring) :
  In command version_spellings ->
  commonjs_package (Content text) = true ->
  JSON.parse text = JSON.Parsed (JSON.JObject members) remainder ->
  last_member members (js "version") = Some (JSON.JString version) ->
  run (taskly e (Content text) (node :: script :: command :: rest)) w
  = Return tt w [Stdout (js "taskly v" ++ version)].
Proof.
  intros Hc _ Hparse Hversion.
  unfold taskly, main, run. cbn [skipn].
  change (nth_error (command :: rest) 0) with (Some command). cbv iota.
  assert (H1 : (List.length command =? 0)%nat
               || JSString.includes [js "help"; js "--help"; js "-h"] command = false).
  { unfold version_spellings in Hc. cbn [In] in Hc.
    destruct Hc as [<-|[<-|[]]]; vm_compute; reflexivity. }
  rewrite H1. apply includes_In in Hc. unfold version_spellings in Hc. rewrite Hc.
  unfold bind, read_package_json, JSON_parse, version_text, ret, console_log.
  rewrite Hparse, Hversion. reflexivity.
Qed.

Lemma version_prints_package_version_witness :
  run (taskly sample_env sample_package (argv [js "--version"; js "list"]))
      (store_of [task_A])
  = Return tt (store_of [task_A]) [Stdout (js "taskly v1.0.0")].
Proof.
  assert (Hc : In (js "--version") version_spellings) by (left; reflexivity).
  assert (Hpackage : commonjs_package sample_package = true)
    by (vm_compute; reflexivity).
  assert (Hparse : JSON.parse
                     (JSON.stringify
                        (JSON.JObject [(js "name", JSON.JString (js "taskly"));
                                       (js "version", JSON.JString (js "1.0.0"))]))
                   = JSON.Parsed
                       (JSON.JObject [(js "name", JSON.JString (js "taskly"));
                                      (js "version", JSON.JString (js "1.0.0"))]) [])
    by (vm_compute; reflexivity).
  assert (Hversion : last_member [(js "name", JSON.JString (js "taskly"));
                                  (js "version", JSON.JString (js "1.0.0"))]
                       (js "version") = Some (JSON.JString (js "1.0.0")))
    by (vm_compute; reflexivity).
  pose proof (version_prints_package_version sample_env _ (store_of [task_A])
                (js "/usr/bin/node") (js "/usr/local/bin/taskly") (js "--version")
                [js "list"] _ _ _ Hc Hpackage Hparse Hversion) as W.
  vm_compute in W. vm_compute. exact W.
Defined.

(** X19: [init] names the project after its first argument, and after
    [my-tasks] when that argument is missing or empty; what follows the
    first argument is not looked at.  It prints its three lines, then the
    ten lines of its timer, and returns, in every world. *)
Theorem init_project_name
    (e : env) (package_json : file_state) (w : world)
    (node script name : jsstring) (rest : list jsstring) :
  let shown := if (List.length name =? 0)%nat then js "my-tasks" else name in
  run (taskly e package_json (node :: script :: js "init" :: name :: rest)) w
  = Return tt w
      ([Stdout (js "🚀 Initializing Taskly workspace...");
        Stdout (js "📁 Project: " ++ shown);
        Stdout []]
       ++ output (run commands.init_callback w))
  /\ run (taskly e package_json [node; script; js "init"]) w
     = run (taskly e package_json [node; script; js "init"; js "my-tasks"]) w
  /\ List.length (output (run commands.init_callback w)) = 10.
Proof. intros shown. split; [|split]; reflexivity. Qed.

(** ** Numbers with a minus sign *)

Lemma rejection_run (e : env) (w : world) (arg : jsstring) (rest : list jsstring)
    (tasks : list Task) (report : list line) :
  run (loadTasks e) w = Return tasks w report ->
  invalid_number (JSString.parseInt arg) (List.length tasks) = true ->
  let rejection : outcome unit :=
    Exit 1 w (report ++ [Stderr (js "❌ Invalid task number. Use 1-"
                                   ++ JSString.toString (List.length tasks))]) in
  run (commands.complete e (arg :: rest)) w = rejection
  /\ run (commands.remove e (arg :: rest)) w = rejection.
Proof.
  intros Hload Hinv rejection. unfold run in Hload.
  split; [unfold commands.complete | unfold commands.remove]; run_monad;
    rewrite Hload; cbn; rewrite Hinv; reflexivity.
Qed.

Lemma parseInt_minus (s : jsstring) :
  match JSString.parseInt (45%N :: s) with
  | Some n => (n <= 0)%Z
  | None => True
  end.
Proof.
  unfold JSString.parseInt. cbn [JSString.trimStart].
  change (JSString.is_whitespace 45) with false. cbv iota.
  unfold JSString.strip_sign. change (45 =? 45)%N with true. cbv iota.
  destruct (JSString.strip_hex_prefix s) as [radix s2].
  destruct (JSString.digits_value radix s2 None) as [m|]; [lia|exact I].
Qed.

(** X20: an argument that starts with a minus sign never addresses a task.
    Whatever follows the sign, and whatever the store holds, [complete] and
    [remove] report the valid range, exit with status 1 and leave the world
    as it was. *)
Theorem minus_sign_rejected
    (e : env) (w : world) (s : jsstring) (rest : list jsstring)
    (tasks : list Task) (report : list line) :
  run (loadTasks e) w = Return tasks w report ->
  let rejection : outcome unit :=
    Exit 1 w (report ++ [Stderr (js "❌ Invalid task number. Use 1-"
                                   ++ JSString.toString (List.length tasks))]) in
  run (commands.complete e ((45%N :: s) :: rest)) w = rejection
  /\ run (commands.remove e ((45%N :: s) :: rest)) w = rejection.
Proof.
  intros Hload. apply rejection_run; [exact Hload|].
  pose proof (parseInt_minus s) as H. unfold invalid_number.
  destruct (JSString.parseInt (45%N :: s)) as [n|]; [|reflexivity].
  apply orb_true_iff. left. apply Z.ltb_lt. lia.
Qed.

Lemma minus_sign_rejected_witness :
  run (commands.remove sample_env [js "-1"]) (store_of [task_A; task_B])
  = Exit 1 (store_of [task_A; task_B]) [Stderr (js "❌ Invalid task number. Use 1-2")].
Proof.
  assert (Hload : run (loadTasks sample_env) (store_of [task_A; task_B])
                  = Return [task_A; task_B] (store_of [task_A; task_B]) [])
    by (vm_compute; reflexivity).
  pose proof (proj2 (minus_sign_rejected sample_env _ (js "1") [] _ _ Hload)) as W.
  vm_compute in W. vm_compute. exact W.
Defined.
